(** * Real-time quantitative analytics dashboard: tick buffer, resampler,
      pair analytics and the OHLCV query endpoint.

    Shallow embedding of [src/backend/data_storage.py],
    [src/backend/analytics.py] and the endpoints and the resampling loop of
    [src/backend/main.py].

    Conventions of the embedding.
    - A Python [float] is a binary64 number: Rocq's primitive [float].
    - A Python [int] is a [Z]; [len] is a [nat].
    - A timestamp is a [Z] (milliseconds); a pandas Series is the list of its
      (index label, value) rows, a DataFrame the list of its rows.
    - A dict used as a registry ([tick_buffer], [resampled_data]) is a
      [gmap]; a dict built as a result payload is an association list inside
      the value type [pyval], so that the order of the literal is kept.
    - The numerical routines of pandas, scipy and statsmodels (regression,
      rolling moments, descriptive moments, the unit-root test, group sums)
      are parameters of the sections below: every theorem holds for each
      implementation of them.
    - Exceptions. [adfuller], which the code wraps in [try]/[except], gives
      its output or the text of its exception. The exceptions that the
      code does not catch are modelled where a call is: the [ValueError]
      of [linregress] on identical values and of a negative rolling window
      in [analyze_pair_outcome] (answered with status 500 by the
      endpoint), the rejection of a bin width or of timestamps by the
      resampler in [resample_to_ohlcv] (which ends the pass of the
      resampling loop). The functions that build a value ([analyze_pair],
      [compute_rolling_zscore], ...) describe the value of a call that
      returns. *)

From Stdlib Require Import ZArith List Floats Bool Lia.
From stdpp Require Import base gmap strings list pretty sorting.

Set Warnings "-inexact-float,-clear-no-such-hyp,-abstract-large-number,-register-all".
Set Default Proof Using "Type".

Local Open Scope Z_scope.

(** ** Binary64 helpers shared by the modules *)

Abbreviation fnan := PrimFloat.nan.
Abbreviation is_nan := PrimFloat.is_nan.
Abbreviation is_infinity := PrimFloat.is_infinity.
(** IEEE equality, Python's [==] on floats: [0.0 == -0.0], [nan != nan]. *)
Abbreviation feqb := PrimFloat.eqb.

(** [datetime.isoformat], the only use the code makes of a timestamp besides
    comparing and bucketing it. *)
Class TimeFormat := { isoformat : Z → string }.

(** Python's [l[start:]] for an integer [start] of either sign. *)
Definition py_slice_from {A} (start : Z) (l : list A) : list A :=
  if decide (0 ≤ start) then drop (Z.to_nat start) l
  else drop (Z.to_nat (Z.of_nat (length l) + start)) l.

(** * data_storage.py *)

Module Storage.

Record Tick := mkTick {
  symbol : string;
  timestamp : Z;
  price : float;
  quantity : float
}.

(** One row of the resampled frame: the bucket start (the index) and the
    five columns. *)
Record Bar := mkBar {
  ts : Z;
  open : float;
  high : float;
  low : float;
  close : float;
  volume : float
}.

(** [deque(maxlen=10000)] *)
Definition maxlen : nat := Z.to_nat 10000.

(** [deque.append] on a bounded deque: the item goes to the tail, and when
    the length then exceeds [maxlen] one item is popped from the head. *)
Definition deque_append (cap : nat) (d : list Tick) (x : Tick) : list Tick :=
  let d' := d ++ [x] in
  if decide (cap < length d')%nat then drop 1 d' else d'.

(** The fields of [DataStorage] that live in memory. [resampled_data] is
    [{symbol: {timeframe: DataFrame}}]. The SQLite file is not part of the
    state: writes to it are never read back by the code. *)
Record DataStorage := mkStorage {
  tick_buffer : gmap string (list Tick);
  resampled_data : gmap string (gmap string (list Bar))
}.

(** [DataStorage.__init__] *)
Definition new_storage : DataStorage :=
  {| tick_buffer := ∅; resampled_data := ∅ |}.

(** [self.tick_buffer[symbol]] on the [defaultdict]: a missing key is
    inserted with a fresh empty deque before it is returned. *)
Definition tick_buffer_getitem (sym : string) (tb : gmap string (list Tick))
  : list Tick * gmap string (list Tick) :=
  match tb !! sym with
  | Some d => (d, tb)
  | None => ([], <[sym := []]> tb)
  end.

(** [add_tick] *)
Definition add_tick (st : DataStorage) (tick : Tick) : DataStorage :=
  let '(d, tb) := tick_buffer_getitem (symbol tick) (tick_buffer st) in
  {| tick_buffer := <[symbol tick := deque_append maxlen d tick]> tb;
     resampled_data := resampled_data st |}.

(** [get_recent_ticks]: [ticks[-limit:] if len(ticks) > limit else ticks] *)
Definition get_recent_ticks (st : DataStorage) (sym : string) (limit : Z)
  : list Tick * DataStorage :=
  let '(ticks, tb) := tick_buffer_getitem sym (tick_buffer st) in
  (if decide (limit < Z.of_nat (length ticks))
   then py_slice_from (- limit) ticks else ticks,
   {| tick_buffer := tb; resampled_data := resampled_data st |}).

(** [get_all_symbols]: [list(self.tick_buffer.keys())], as the set of its
    elements (the order of the keys is not modelled). *)
Definition get_all_symbols (st : DataStorage) : gset string :=
  dom (tick_buffer st).

(** [DataFrame.tail(n)]: [iloc[0:0]] for [n = 0], else [iloc[-n:]]. *)
Definition tail {A} (n : Z) (df : list A) : list A :=
  if decide (n = 0) then [] else py_slice_from (- n) df.

(** [get_ohlcv]; the empty list stands for [pd.DataFrame()]. *)
Definition get_ohlcv (st : DataStorage) (sym tf : string) (limit : Z) : list Bar :=
  match resampled_data st !! sym with
  | Some tables =>
      match tables !! tf with
      | Some df => tail limit df
      | None => []
      end
  | None => []
  end.

(** *** Resampling *)

(** What the code takes from the resampler of pandas: the group reduction
    ['sum'] on the quantities of one bucket, and whether the resampler
    rejects, with an exception, a bin width (in seconds) for ticks at the
    given timestamps, as it does for a width or for bin edges that its
    64-bit nanosecond clock cannot hold. *)
Class GroupAgg := {
  group_sum : list float → float;
  resample_rejects : Z → list Z → bool
}.

Definition notna (x : float) : bool := negb (is_nan x).

(** ['first'] and ['last']: the first and last non-missing value of the
    group, missing when there is none. *)
Definition group_first (l : list float) : float :=
  List.hd fnan (List.filter notna l).

Definition group_last (l : list float) : float :=
  List.last (List.filter notna l) fnan.

(** ['max'] and ['min'] skip missing values. *)
Definition group_max (l : list float) : float :=
  match List.filter notna l with
  | [] => fnan
  | x :: r => fold_left (λ acc y, if PrimFloat.ltb acc y then y else acc) r x
  end.

Definition group_min (l : list float) : float :=
  match List.filter notna l with
  | [] => fnan
  | x :: r => fold_left (λ acc y, if PrimFloat.ltb y acc then y else acc) r x
  end.

Definition ms_per_day : Z := 86400000.

(** Left edge of the bin of [t]: bins of [seconds] seconds counted from the
    midnight before the first timestamp [t0] (pandas' [origin='start_day'],
    [closed='left'], [label='left']). *)
Definition bucket_start (t0 seconds t : Z) : Z :=
  let origin := t0 `div` ms_per_day * ms_per_day in
  let width := seconds * 1000 in
  origin + (t - origin) `div` width * width.

Definition ts_le (a b : Tick) : Prop := timestamp a ≤ timestamp b.

#[global] Instance ts_le_dec a b : Decision (ts_le a b) := Z_le_dec _ _.

(** The frame put in time order, as the resampler does before it bins: a
    stable sort, the ticks of one timestamp stay in arrival order. *)
Fixpoint insert_by_time (x : Tick) (l : list Tick) : list Tick :=
  match l with
  | [] => [x]
  | y :: rest =>
      if decide (ts_le x y) then x :: y :: rest else y :: insert_by_time x rest
  end.

Definition sort_by_time (ticks : list Tick) : list Tick :=
  foldr insert_by_time [] ticks.

Section Resample.
Context {agg : GroupAgg}.

(** One row of [.agg({'price': ['first','max','min','last'], 'quantity': 'sum'})]. *)
Definition agg_bucket (b : Z) (group : list Tick) : Bar :=
  let prices := map price group in
  {| ts := b;
     open := group_first prices;
     high := group_max prices;
     low := group_min prices;
     close := group_last prices;
     volume := group_sum (map quantity group) |}.

(** [df.resample(f'{seconds}s').agg(...)] followed by
    [dropna(subset=['close'])]. The frame is ordered by timestamp (a stable
    sort); a bin that holds no tick has a missing close and is dropped with
    the bins whose prices are all missing. *)
Definition resample (seconds : Z) (ticks : list Tick) : list Bar :=
  let sorted := sort_by_time ticks in
  match sorted with
  | [] => []
  | t0 :: _ =>
      let key t := bucket_start (timestamp t0) seconds (timestamp t) in
      let bins := remove_dups (map key sorted) in
      let ohlcv := map (λ b, agg_bucket b (List.filter (λ t, key t =? b) sorted)) bins in
      List.filter (λ r, notna (close r)) ohlcv
  end.

(** The widest bin, in seconds, whose count of nanoseconds fits the signed
    64-bit clock of pandas: a wider [f'{seconds}s'] cannot be made a
    frequency. *)
Definition max_bin_seconds : Z := 9223372036.

(** What a call of [resample_to_ohlcv] hands back: [None] for fewer than two
    ticks, the frame otherwise; the library rejects a bin width that is not
    positive, and bins it cannot represent, with an exception that the
    method does not catch: nothing is stored then. *)
Inductive resample_result :=
  | ResampleNone
  | ResampleRaised
  | ResampleFrame (ohlcv : list Bar).

(** [self.resampled_data[symbol][timeframe] = ohlcv] on the
    [defaultdict(dict)]. *)
Definition resampled_data_set (sym tf : string) (ohlcv : list Bar)
  (rd : gmap string (gmap string (list Bar))) : gmap string (gmap string (list Bar)) :=
  <[sym := <[tf := ohlcv]> (default ∅ (rd !! sym))]> rd.

(** [resample_to_ohlcv]; [get_recent_ticks] is called with its default
    [limit=1000]. *)
Definition resample_to_ohlcv (st : DataStorage) (sym tf : string) (seconds : Z)
  : resample_result * DataStorage :=
  let '(ticks, st1) := get_recent_ticks st sym 1000 in
  if decide (length ticks < 2)%nat then (ResampleNone, st1)
  else if decide (seconds ≤ 0) then (ResampleRaised, st1)
  else if decide (max_bin_seconds < seconds) then (ResampleRaised, st1)
  else if resample_rejects seconds (map timestamp ticks) then (ResampleRaised, st1)
  else
    let ohlcv := resample seconds ticks in
    (ResampleFrame ohlcv,
     {| tick_buffer := tick_buffer st1;
        resampled_data := resampled_data_set sym tf ohlcv (resampled_data st1) |}).

(** *** Sequences of calls on one storage object *)

Inductive call :=
  | CallAddTick (tick : Tick)
  | CallGetRecentTicks (sym : string) (limit : Z)
  | CallGetAllSymbols
  | CallGetOhlcv (sym tf : string) (limit : Z)
  | CallResample (sym tf : string) (seconds : Z).

Definition step (st : DataStorage) (c : call) : DataStorage :=
  match c with
  | CallAddTick tick => add_tick st tick
  | CallGetRecentTicks sym limit => (get_recent_ticks st sym limit).2
  | CallGetAllSymbols => st
  | CallGetOhlcv _ _ _ => st
  | CallResample sym tf seconds => (resample_to_ohlcv st sym tf seconds).2
  end.

Definition run (calls : list call) (st : DataStorage) : DataStorage :=
  fold_left step calls st.

(** The ticks that a sequence of calls passed to [add_tick] for [sym]. *)
Definition ticks_added (sym : string) (calls : list call) : list Tick :=
  omap (λ c, match c with
             | CallAddTick tick => if decide (symbol tick = sym) then Some tick else None
             | _ => None
             end) calls.

(** The symbols whose buffer a call reads through [self.tick_buffer[symbol]]
    without adding a tick. *)
Definition symbols_read (calls : list call) : gset string :=
  list_to_set (omap (λ c, match c with
                          | CallGetRecentTicks sym _ => Some sym
                          | CallResample sym _ _ => Some sym
                          | _ => None
                          end) calls).

Definition symbols_added (calls : list call) : gset string :=
  list_to_set (omap (λ c, match c with
                          | CallAddTick tick => Some (symbol tick)
                          | _ => None
                          end) calls).

(** The deque of [sym], empty when the key is absent. *)
Definition buffer (st : DataStorage) (sym : string) : list Tick :=
  default [] (tick_buffer st !! sym).

End Resample.

End Storage.

(** * analytics.py *)

Module Analytics.

(** The values a result payload is made of. A dict is the list of its items
    in insertion order. *)
Inductive pyval :=
  | PNone
  | PBool (b : bool)
  | PInt (n : Z)
  | PFloat (x : float)
  | PStr (s : string)
  | PList (items : list pyval)
  | PDict (entries : list (string * pyval)).

(** [d[k] = v]: an existing key keeps its place and takes the new value. *)
Fixpoint dict_set (k : string) (v : pyval) (d : list (string * pyval))
  : list (string * pyval) :=
  match d with
  | [] => [(k, v)]
  | (k', v') :: rest =>
      if decide (k' = k) then (k', v) :: rest else (k', v') :: dict_set k v rest
  end.

(** A dict display [{k1: v1, k2: v2, ...}], evaluated left to right. *)
Definition dict_literal (items : list (string * pyval)) : list (string * pyval) :=
  fold_left (λ d kv, dict_set kv.1 kv.2 d) items [].

(** [d.get(k)] *)
Fixpoint dict_get (k : string) (d : list (string * pyval)) : option pyval :=
  match d with
  | [] => None
  | (k', v) :: rest => if decide (k' = k) then Some v else dict_get k rest
  end.

(** [k in v] and [v[k]] on a payload that may or may not be a dict. *)
Definition field (k : string) (v : pyval) : option pyval :=
  match v with
  | PDict d => dict_get k d
  | _ => None
  end.

(** A Series: its rows (index label, value), in index order. *)
Abbreviation Series := (list (Z * float)).

Definition values (s : Series) : list float := map snd s.
Definition index (s : Series) : list Z := map fst s.

Definition notna (x : float) : bool := negb (is_nan x).

(** [s.dropna()] *)
Definition dropna (s : Series) : Series := List.filter (λ r, notna r.2) s.

(** [s.replace([np.inf, -np.inf], np.nan)] *)
Definition replace_inf (s : Series) : Series :=
  map (λ r, (r.1, if is_infinity r.2 then fnan else r.2)) s.

(** [s.replace(0, np.nan)] on the values; the match is by [==], so both
    zeros are replaced. *)
Definition replace_zero (l : list float) : list float :=
  map (λ x, if feqb x 0 then fnan else x) l.

(** Value of [s] at label [t], missing when the label is absent. *)
Definition series_at (s : Series) (t : Z) : float :=
  match List.find (λ r, r.1 =? t) s with
  | Some r => r.2
  | None => fnan
  end.

(** The index of [pd.DataFrame({'p1': s1, 'p2': s2})]: the common index when
    the two are equal, their sorted union otherwise. Index labels are taken
    to be unique within a series, as they are in a resampled frame. *)
Definition union_index (i1 i2 : list Z) : list Z :=
  if decide (i1 = i2) then i1 else merge_sort Z.le (remove_dups (i1 ++ i2)).

(** A two-column frame: rows (label, (p1, p2)). *)
Abbreviation Frame2 := (list (Z * (float * float))).

Definition frame2 (s1 s2 : Series) : Frame2 :=
  map (λ t, (t, (series_at s1 t, series_at s2 t))) (union_index (index s1) (index s2)).

(** [df.dropna()]: rows with a missing value in either column go. *)
Definition dropna_frame (df : Frame2) : Frame2 :=
  List.filter (λ r, notna r.2.1 && notna r.2.2) df.

Definition column1 (df : Frame2) : Series := map (λ r, (r.1, r.2.1)) df.
Definition column2 (df : Frame2) : Series := map (λ r, (r.1, r.2.2)) df.

(** [s.nunique()]: distinct non-missing values, compared by [==]. *)
Fixpoint distinct (l : list float) : list float :=
  match l with
  | [] => []
  | x :: rest => if existsb (feqb x) rest then distinct rest else x :: distinct rest
  end.

Definition nunique (s : Series) : nat :=
  length (distinct (List.filter notna (values s))).

(** [is_plot_safe] *)
Definition is_plot_safe (series : Series) (min_points : Z) : bool :=
  if decide (Z.of_nat (length series) < min_points) then false
  else if existsb is_nan (values series) || existsb is_infinity (values series) then false
  else if decide (nunique series ≤ 1)%nat then false
  else true.

(** Output of [statsmodels.tsa.stattools.adfuller]: statistic, p-value, used
    lag, number of observations and the three critical values. *)
Record adf_output := mkAdf {
  adf_stat : float;
  adf_pvalue : float;
  adf_usedlag : Z;
  adf_nobs : Z;
  adf_crit1 : float;
  adf_crit5 : float;
  adf_crit10 : float
}.

(** The numerical routines the module calls in pandas, scipy and
    statsmodels. [linregress] gives the slope and the correlation
    coefficient; a rolling routine gives one value per row of its input;
    [adfuller] gives its output or the text of the exception it raised. *)
Class Numerics := {
  linregress : list float → list float → float * float;
  rolling_mean : Z → list float → list float;
  rolling_std : Z → list float → list float;
  rolling_corr : Z → list float → list float → list float;
  series_mean : list float → float;
  series_std : list float → float;
  series_min : list float → float;
  series_max : list float → float;
  adfuller : list float → string + adf_output
}.

(** The exceptions of the library routines that [analyze_pair] does not
    catch. [scipy.stats.linregress] raises [ValueError] when [x] has more
    than one value and all are identical ([np.amax(x) == np.amin(x)]). *)
Definition linregress_rejects (x : list float) : bool :=
  match x with
  | [] => false
  | x0 :: rest => bool_decide (1 < length x)%nat && forallb (feqb x0) rest
  end.

(** [Series.rolling(window=window)] raises [ValueError] for a negative
    window. *)
Definition rolling_rejects (window : Z) : bool := window <? 0.

(** What a call does: it raises an exception of the named class, or it
    returns. *)
Inductive outcome (A : Type) :=
  | Raises (exception : string)
  | Returns (value : A).

Arguments Raises {A} exception.
Arguments Returns {A} value.

(** Value of a computed column at row [i], missing past its end. *)
Definition at_row (col : list float) (i : nat) : float := nth i col fnan.

(** A computed column put back on the index of its input. *)
Definition on_index (idx : list Z) (col : list float) : Series :=
  imap (λ i t, (t, at_row col i)) idx.

(** [prices.pct_change()]: missing in the first row, then
    [prices / prices.shift(1) - 1]. *)
Definition pct_change (l : list float) : list float :=
  imap (λ i x, match i with
               | O => fnan
               | S j => PrimFloat.sub (PrimFloat.div x (at_row l j)) 1
               end) l.

Section Engine.
Context {num : Numerics} {fmt : TimeFormat}.

(** [QuantAnalytics.compute_basic_stats] *)
Definition compute_basic_stats (prices : Series) : pyval :=
  if decide (length prices < 2)%nat then PDict []
  else
    let vol := series_std (pct_change (values prices)) in
    let volatility :=
      if notna vol && negb (is_nan vol || is_infinity vol)
      then PrimFloat.mul vol (PrimFloat.sqrt 252) else 0%float in
    PDict (dict_literal
      [("mean", PFloat (series_mean (values prices)));
       ("std", PFloat (series_std (values prices)));
       ("min", PFloat (series_min (values prices)));
       ("max", PFloat (series_max (values prices)));
       ("last", PFloat (List.last (values prices) fnan));
       ("volatility", PFloat volatility)]).

(** [QuantAnalytics.compute_ols_hedge_ratio] *)
Definition compute_ols_hedge_ratio (prices1 prices2 : Series) : float * float :=
  if decide (length prices1 < 10 ∨ length prices2 < 10)%nat then (0%float, 0%float)
  else
    let df := dropna_frame (frame2 prices1 prices2) in
    if decide (length df < 10)%nat then (0%float, 0%float)
    else
      let '(slope, r_value) := linregress (values (column2 df)) (values (column1 df)) in
      (slope, PrimFloat.mul r_value r_value).

(** [QuantAnalytics.compute_spread] *)
Definition compute_spread (prices1 prices2 : Series) (hedge_ratio : float) : Series :=
  let df := dropna_frame (frame2 prices1 prices2) in
  dropna (replace_inf
    (map (λ r, (r.1, PrimFloat.sub r.2.1 (PrimFloat.mul hedge_ratio r.2.2))) df)).

(** The rows of [(series - rolling_mean) / rolling_std], with the zero
    deviations made missing first: the lines shared by
    [compute_rolling_zscore] and the z-score block of [analyze_pair]. *)
Definition zscore_rows (series : Series) (window : Z) : Series :=
  let mean_col := rolling_mean window (values series) in
  let std_col := replace_zero (rolling_std window (values series)) in
  imap (λ i r, (r.1, PrimFloat.div (PrimFloat.sub r.2 (at_row mean_col i))
                                   (at_row std_col i))) series.

(** [QuantAnalytics.compute_rolling_zscore] *)
Definition compute_rolling_zscore (series : Series) (window : Z) : Series :=
  if decide (Z.of_nat (length series) < window) then []
  else dropna (replace_inf (zscore_rows series window)).

(** [QuantAnalytics.compute_rolling_correlation] *)
Definition compute_rolling_correlation (prices1 prices2 : Series) (window : Z) : Series :=
  let df := dropna_frame (frame2 prices1 prices2) in
  if decide (Z.of_nat (length df) < window) then []
  else dropna (on_index (map fst df)
                 (rolling_corr window (values (column1 df)) (values (column2 df)))).

(** [QuantAnalytics.augmented_dickey_fuller_test] *)
Definition augmented_dickey_fuller_test (series : Series) : pyval :=
  if decide (length series < 12)%nat
  then PDict (dict_literal [("error", PStr "Insufficient data for ADF test")])
  else
    match adfuller (values (dropna series)) with
    | inr r =>
        PDict (dict_literal
          [("adf_statistic", PFloat (adf_stat r));
           ("p_value", PFloat (adf_pvalue r));
           ("used_lag", PInt (adf_usedlag r));
           ("n_observations", PInt (adf_nobs r));
           ("critical_values",
            PDict (dict_literal
              [("1%", PFloat (adf_crit1 r));
               ("5%", PFloat (adf_crit5 r));
               ("10%", PFloat (adf_crit10 r))]));
           ("is_stationary", PBool (PrimFloat.ltb (adf_pvalue r) 0.05))])
    | inl e => PDict (dict_literal [("error", PStr e)])
    end.

(** [series_to_list_safe], local to [analyze_pair] *)
Definition series_to_list_safe (s : Series) : list pyval :=
  if negb (is_plot_safe s 3) then []
  else
    let result :=
      omap (λ r, if is_nan r.2 || is_infinity r.2 then None
                 else Some (PList [PStr (isoformat r.1); PFloat r.2])) s in
    if decide (length result < 2)%nat then [] else result.

(** [sanitize_value], local to [analyze_pair] *)
Definition sanitize_value (v : pyval) : pyval :=
  match v with
  | PFloat x => if is_nan x || is_infinity x then PNone else PFloat x
  | _ => v
  end.

(** [sanitize_dict], local to [analyze_pair] *)
Fixpoint sanitize_dict (d : pyval) : pyval :=
  match d with
  | PDict entries =>
      PDict ((fix items (l : list (string * pyval)) : list (string * pyval) :=
                match l with
                | [] => []
                | (k, v) :: rest =>
                    (k, match v with
                        | PDict _ => sanitize_dict v
                        | _ => sanitize_value v
                        end) :: items rest
                end) entries)
  | _ => sanitize_value d
  end.

(** [s.iloc[-1] if len(s) > 0 else None] *)
Definition iloc_last (s : Series) : pyval :=
  match last s with
  | Some r => PFloat r.2
  | None => PNone
  end.

(** *** The stages of [analyze_pair] *)

(** Step 1: the aligned frame. *)
Definition aligned (prices1 prices2 : Series) : Frame2 :=
  dropna_frame (frame2 prices1 prices2).

Definition min_required (window : Z) : Z := Z.max 5 window.

(** The hedge ratio and the r-squared. *)
Definition pair_hedge (prices1 prices2 : Series) : float * float :=
  let df_aligned := aligned prices1 prices2 in
  if decide (length (column1 df_aligned) < 10)%nat then (1%float, 0%float)
  else
    let x := values (column2 df_aligned) in
    let y := values (column1 df_aligned) in
    let '(slope, r_value) := linregress x y in
    (slope, PrimFloat.mul r_value r_value).

(** The spread on the aligned rows. *)
Definition pair_spread (prices1 prices2 : Series) : Series :=
  let hedge_ratio := (pair_hedge prices1 prices2).1 in
  dropna (replace_inf
    (map (λ r, (r.1, PrimFloat.sub r.2.1 (PrimFloat.mul hedge_ratio r.2.2)))
         (aligned prices1 prices2))).

(** The rolling z-score of the spread. *)
Definition pair_zscore (prices1 prices2 : Series) (window : Z) : Series :=
  let spread := pair_spread prices1 prices2 in
  if decide (window ≤ Z.of_nat (length spread))
  then dropna (replace_inf (zscore_rows spread window))
  else [].

(** The rolling correlation of the aligned prices. *)
Definition pair_correlation (prices1 prices2 : Series) (window : Z) : Series :=
  let df_aligned := aligned prices1 prices2 in
  if decide (window ≤ Z.of_nat (length df_aligned))
  then dropna (on_index (map fst df_aligned)
                 (rolling_corr window (values (column1 df_aligned))
                                      (values (column2 df_aligned))))
  else [].

(** The payload returned when too few rows are aligned. *)
Definition insufficient (observed required : Z) : pyval :=
  PDict (dict_literal
    [("error", PStr ("Insufficient aligned data: " +:+ pretty observed
                     +:+ " points, need at least " +:+ pretty required))]).

(** [PairAnalysis.analyze_pair]: the dict that a call builds. Whether the
    call gets to return it is [analyze_pair_outcome] below. *)
Definition analyze_pair (symbol1 symbol2 : string) (prices1 prices2 : Series)
  (window : Z) : pyval :=
  let df_aligned := aligned prices1 prices2 in
  if decide (Z.of_nat (length df_aligned) < min_required window)
  then insufficient (Z.of_nat (length df_aligned)) (min_required window)
  else
    let aligned_prices1 := column1 df_aligned in
    let aligned_prices2 := column2 df_aligned in
    let '(hedge_ratio, r_squared) := pair_hedge prices1 prices2 in
    let spread := pair_spread prices1 prices2 in
    let zscore := pair_zscore prices1 prices2 window in
    let correlation := pair_correlation prices1 prices2 window in
    let stats1 := compute_basic_stats aligned_prices1 in
    let stats2 := compute_basic_stats aligned_prices2 in
    let spread_stats := compute_basic_stats spread in
    let adf_result := augmented_dickey_fuller_test spread in
    PDict (dict_literal
      [("symbol1", PStr symbol1);
       ("symbol2", PStr symbol2);
       ("hedge_ratio", sanitize_value (PFloat hedge_ratio));
       ("r_squared", sanitize_value (PFloat r_squared));
       ("current_spread", sanitize_value (iloc_last spread));
       ("current_zscore", sanitize_value (iloc_last zscore));
       ("current_correlation", sanitize_value (iloc_last correlation));
       ("stats", PDict (dict_literal
          [(symbol1, sanitize_dict stats1);
           (symbol2, sanitize_dict stats2);
           ("spread", sanitize_dict spread_stats)]));
       ("adf_test", sanitize_dict adf_result);
       ("series", PDict (dict_literal
          [("spread", PList (series_to_list_safe spread));
           ("zscore", PList (series_to_list_safe zscore));
           ("correlation", PList (series_to_list_safe correlation))]))]).

(** A call of [PairAnalysis.analyze_pair], with the exceptions that leave
    it: the method has no [try] of its own, so a [ValueError] of the
    regression (reached with ten aligned rows or more) or of a rolling
    window (reached when [len(spread) >= window] or
    [len(df_aligned) >= window]) ends the call. *)
Definition analyze_pair_outcome (symbol1 symbol2 : string) (prices1 prices2 : Series)
  (window : Z) : outcome pyval :=
  let df_aligned := aligned prices1 prices2 in
  if decide (Z.of_nat (length df_aligned) < min_required window)
  then Returns (analyze_pair symbol1 symbol2 prices1 prices2 window)
  else if negb (bool_decide (length (column1 df_aligned) < 10)%nat)
          && linregress_rejects (values (column2 df_aligned))
  then Raises "ValueError"
  else
    let spread := pair_spread prices1 prices2 in
    if (bool_decide (window ≤ Z.of_nat (length spread))
        || bool_decide (window ≤ Z.of_nat (length df_aligned)))
       && rolling_rejects window
    then Raises "ValueError"
    else Returns (analyze_pair symbol1 symbol2 prices1 prices2 window).

End Engine.

End Analytics.

(** * main.py: the OHLCV endpoint *)

Module Api.
Import Storage.

(** [config.TIMEFRAMES] *)
Definition TIMEFRAMES : list (string * Z) := [("1s", 1); ("1m", 60); ("5m", 300)].

(** One item of the ["data"] list of the response. *)
Record BarJson := mkBarJson {
  json_timestamp : string;
  json_open : float;
  json_high : float;
  json_low : float;
  json_close : float;
  json_volume : float
}.

(** What the endpoint does: raise [HTTPException] or return [{"data": ...}]. *)
Inductive response :=
  | HTTPException (status_code : Z) (detail : string)
  | Data (data : list BarJson).

(** [row.isna().any()] *)
Definition row_isna_any (row : Bar) : bool :=
  is_nan (open row) || is_nan (high row) || is_nan (low row)
  || is_nan (close row) || is_nan (volume row).

Section Endpoint.
Context {fmt : TimeFormat}.

Definition bar_json (row : Bar) : BarJson :=
  {| json_timestamp := isoformat (ts row);
     json_open := open row;
     json_high := high row;
     json_low := low row;
     json_close := close row;
     json_volume := volume row |}.

(** [GET /api/ohlcv/{symbol}/{timeframe}] on the storage object [st]. *)
Definition get_ohlcv (st : DataStorage) (sym timeframe : string) (limit : Z) : response :=
  if negb (bool_decide (timeframe ∈ map fst TIMEFRAMES))
  then HTTPException 400 "Invalid timeframe"
  else
    let df := Storage.get_ohlcv st sym timeframe limit in
    if bool_decide (df = []) then Data []
    else
      let data := map bar_json (List.filter (λ row, negb (row_isna_any row)) df) in
      if decide (length data < 2)%nat then Data [] else Data data.

End Endpoint.

(** *** The analysis and statistics endpoints, the resampling loop, alerts *)

(** [config.DEFAULT_ROLLING_WINDOW] *)
Definition DEFAULT_ROLLING_WINDOW : Z := 20.

(** What an endpoint does: raise [HTTPException] or return a value. *)
Inductive reply (A : Type) :=
  | Raised (status_code : Z) (detail : string)
  | Returned (value : A).

Arguments Raised {A} status_code detail.
Arguments Returned {A} value.

(** [df['close']]: the close column on the index of the frame. *)
Definition close_column (df : list Bar) : Analytics.Series :=
  map (λ row, (ts row, close row)) df.

Section Analysis.
Context {num : Analytics.Numerics} {fmt : TimeFormat}.

(** [GET /api/analyze/{symbol1}/{symbol2}]; both frames are read with the
    default [limit=1000] of [DataStorage.get_ohlcv]. An exception that
    leaves [PairAnalysis.analyze_pair] leaves the handler too, and the
    framework answers it with status 500. *)
Definition analyze_pair (st : DataStorage) (symbol1 symbol2 timeframe : string)
  (window : Z) : reply Analytics.pyval :=
  if negb (bool_decide (timeframe ∈ map fst TIMEFRAMES))
  then Raised 400 "Invalid timeframe"
  else
    let df1 := Storage.get_ohlcv st symbol1 timeframe 1000 in
    let df2 := Storage.get_ohlcv st symbol2 timeframe 1000 in
    if bool_decide (df1 = []) || bool_decide (df2 = [])
    then Raised 404 "Insufficient data for analysis"
    else
      let prices1 := close_column df1 in
      let prices2 := close_column df2 in
      match Analytics.analyze_pair_outcome symbol1 symbol2 prices1 prices2 window with
      | Analytics.Raises _ => Raised 500 "Internal Server Error"
      | Analytics.Returns result => Returned result
      end.

(** [GET /api/stats/{symbol}] *)
Definition get_symbol_stats (st : DataStorage) (sym timeframe : string)
  : reply Analytics.pyval :=
  if negb (bool_decide (timeframe ∈ map fst TIMEFRAMES))
  then Raised 400 "Invalid timeframe"
  else
    let df := Storage.get_ohlcv st sym timeframe 1000 in
    if bool_decide (df = []) then Raised 404 "No data available"
    else Returned (Analytics.compute_basic_stats (close_column df)).

End Analysis.

Section Loop.
Context {agg : GroupAgg}.

(** A pass of [resampling_loop] in progress: still running on a storage,
    or ended by an exception, which the [try] around the whole pass
    catches and logs. *)
Inductive pass :=
  | Running (st : DataStorage)
  | Stopped (st : DataStorage).

Definition storage_of (p : pass) : DataStorage :=
  match p with
  | Running st => st
  | Stopped st => st
  end.

(** One call [data_storage.resample_to_ohlcv(symbol, timeframe, seconds)]
    of the pass. *)
Definition resample_job (p : pass) (sym : string) (job : string * Z) : pass :=
  match p with
  | Stopped st => Stopped st
  | Running st =>
      match resample_to_ohlcv st sym job.1 job.2 with
      | (ResampleRaised, st1) => Stopped st1
      | (_, st1) => Running st1
      end
  end.

(** The inner loop of [resampling_loop] for one symbol:
    [for timeframe, seconds in TIMEFRAMES.items()]. *)
Definition resample_symbol (p : pass) (sym : string) : pass :=
  fold_left (λ p job, resample_job p sym job) TIMEFRAMES p.

(** One pass of [resampling_loop] over the listed symbols. *)
Definition resampling_pass_over (symbols : list string) (st : DataStorage) : DataStorage :=
  storage_of (fold_left resample_symbol symbols (Running st)).

(** One pass of [resampling_loop]: the symbols are the keys of the tick
    buffer when the pass starts. (Python visits them in insertion order,
    which a [gset] does not keep; the order matters only to a pass that an
    exception ends.) *)
Definition resampling_pass (st : DataStorage) : DataStorage :=
  resampling_pass_over (elements (get_all_symbols st)) st.

End Loop.

(** An item of the global [alerts] list. *)
Record Alert := mkAlert {
  alert_id : Z;
  alert_config : Analytics.pyval;
  created_at : string;
  triggered : bool
}.

(** [POST /api/alerts]; [now] is the text of [datetime.now().isoformat()].
    The new alert is returned and appended to the list. *)
Definition create_alert (alerts : list Alert) (config : Analytics.pyval) (now : string)
  : Alert * list Alert :=
  let alert :=
    {| alert_id := Z.of_nat (length alerts) + 1;
       alert_config := config;
       created_at := now;
       triggered := false |} in
  (alert, alerts ++ [alert]).

(** The alerts list after a sequence of [POST /api/alerts] requests. *)
Definition create_alerts (requests : list (Analytics.pyval * string)) (alerts : list Alert)
  : list Alert :=
  fold_left (λ alerts req, (create_alert alerts req.1 req.2).2) requests alerts.

End Api.

(** * A reference instance of the numerical routines

    Textbook formulas in binary64, used to run the pipeline on concrete
    inputs. The rolling deviation reports an exact zero on a window of two
    or more equal values, as pandas does by counting consecutive equal
    observations; on a window of one value the sample deviation is missing. *)

Module Reference.
Import Analytics.

Definition fsum (l : list float) : float := fold_left PrimFloat.add l 0%float.

Definition of_nat (n : nat) : float := PrimFloat.of_uint63 (Uint63.of_Z (Z.of_nat n)).

Definition mean (l : list float) : float := PrimFloat.div (fsum l) (of_nat (length l)).

(** Sum of the products of the deviations from the means. *)
Definition codeviation (xs ys : list float) : float :=
  let mx := mean xs in
  let my := mean ys in
  fsum (zip_with (λ x y, PrimFloat.mul (PrimFloat.sub x mx) (PrimFloat.sub y my)) xs ys).

(** Sample standard deviation ([ddof=1]), missing with fewer than two
    observations. *)
Definition std (l : list float) : float :=
  if decide (length l ≤ 1)%nat then fnan
  else PrimFloat.sqrt (PrimFloat.div (codeviation l l) (of_nat (length l - 1))).

Definition corr (xs ys : list float) : float :=
  PrimFloat.div (codeviation xs ys)
    (PrimFloat.sqrt (PrimFloat.mul (codeviation xs xs) (codeviation ys ys))).

(** The [window] values that end at row [i]. *)
Definition trailing (vals : list float) (window : Z) (i : nat) : list float :=
  take (Z.to_nat window) (drop (i + 1 - Z.to_nat window) vals).

(** Row [i] ends a full window of values all equal to the value at [i]. *)
Definition constant_window (vals : list float) (window : Z) (i : nat) : bool :=
  (0 <? window) && (window <=? Z.of_nat i + 1) && (Z.of_nat i <? Z.of_nat (length vals))
  && forallb (λ x, feqb x (at_row vals i)) (trailing vals window i).

(** A rolling statistic with [min_periods = window]: missing until the
    window is full. *)
Definition rolling (stat : list float → float) (window : Z) (vals : list float) : list float :=
  imap (λ i _, if (window <=? 0) || (Z.of_nat i + 1 <? window) then fnan
               else stat (trailing vals window i)) vals.

Definition ref_rolling_std (window : Z) (vals : list float) : list float :=
  imap (λ i x, if (2 <=? window) && constant_window vals window i
                  && negb (is_infinity (at_row vals i))
               then 0%float else x)
       (rolling std window vals).

Definition ref_rolling_corr (window : Z) (xs ys : list float) : list float :=
  imap (λ i _, if (window <=? 0) || (Z.of_nat i + 1 <? window) then fnan
               else corr (trailing xs window i) (trailing ys window i)) xs.

Definition ref_linregress (x y : list float) : float * float :=
  (PrimFloat.div (codeviation x y) (codeviation x x), corr x y).

#[export] Instance ref_numerics : Numerics := {|
  linregress := ref_linregress;
  rolling_mean := rolling mean;
  rolling_std := ref_rolling_std;
  rolling_corr := ref_rolling_corr;
  series_mean := mean;
  series_std := λ l, std (List.filter notna l);
  series_min := Storage.group_min;
  series_max := Storage.group_max;
  adfuller := λ _, inl "adfuller raised"
|}.

(** Timestamps printed as their number of milliseconds. *)
#[export] Instance ref_format : TimeFormat := {| isoformat := pretty |}.

(** The largest count of milliseconds a 64-bit nanosecond clock holds. *)
Definition clock_max : Z := 9223372036854.

(** A resampler with a 64-bit nanosecond clock: it rejects a width it
    cannot hold, timestamps outside the clock, and bins whose first or last
    edge falls outside it. *)
Definition clock_rejects (seconds : Z) (timestamps : list Z) : bool :=
  let width := seconds * 1000 in
  negb (forallb (λ t, (- clock_max <=? t) && (t <=? clock_max)) timestamps
        && (width <=? clock_max)
        && forallb (λ t, (- clock_max <=? t `div` Storage.ms_per_day * Storage.ms_per_day)
                         && (t + width <=? clock_max)) timestamps).

#[export] Instance ref_agg : Storage.GroupAgg :=
  {| Storage.group_sum := fsum; Storage.resample_rejects := clock_rejects |}.

(** Five one-minute closes, and a second series one unit below the first. *)
Definition closes_a : Series :=
  [(0, 2%float); (60000, 3%float); (120000, 4.5%float); (180000, 5%float); (240000, 6%float)].

Definition closes_b : Series :=
  [(0, 1%float); (60000, 2%float); (120000, 3.5%float); (180000, 4%float); (240000, 5%float)].

(** Three closes only. *)
Definition closes_short : Series := [(0, 2%float); (60000, 3%float); (120000, 4%float)].

(** Ten one-minute closes for each of two symbols, and ten closes that do
    not move. *)
Definition closes_ten_a : Series :=
  [(0, 2%float); (60000, 3%float); (120000, 4.5%float); (180000, 5%float);
   (240000, 6%float); (300000, 5.5%float); (360000, 7%float); (420000, 8%float);
   (480000, 7.5%float); (540000, 9%float)].

Definition closes_ten_b : Series :=
  [(0, 1%float); (60000, 2.5%float); (120000, 2%float); (180000, 3%float);
   (240000, 3.5%float); (300000, 3%float); (360000, 4%float); (420000, 5%float);
   (480000, 4.5%float); (540000, 5%float)].

Definition closes_ten_flat : Series :=
  [(0, 4%float); (60000, 4%float); (120000, 4%float); (180000, 4%float);
   (240000, 4%float); (300000, 4%float); (360000, 4%float); (420000, 4%float);
   (480000, 4%float); (540000, 4%float)].

(** A series that stays at 0.1 from its second to its fourth row, and a
    series of zeros on the same labels. *)
Definition flat_inside : Series :=
  [(0, 5%float); (1000, 0.1%float); (2000, 0.1%float); (3000, 0.1%float);
   (4000, 0.3%float); (5000, 0.7%float); (6000, 0.2%float)].

Definition zeros_seven : Series :=
  [(0, 0%float); (1000, 0%float); (2000, 0%float); (3000, 0%float); (4000, 0%float);
   (5000, 0%float); (6000, 0%float)].

(** A spread that stays at 3.0 for four rows, then moves. *)
Definition flat_then_moving : Series :=
  [(0, 3%float); (60000, 3%float); (120000, 3%float); (180000, 3%float);
   (240000, 4%float); (300000, 6%float)].

(** *** A table with an overflowed volume *)

Import Storage.

(** Two one-minute bars; the volume of the first has overflowed. *)
Definition overflowed_bars : list Bar :=
  [ {| ts := 0; open := 100; high := 101; low := 99; close := 100.5;
       volume := PrimFloat.infinity |};
    {| ts := 60000; open := 100.5; high := 102; low := 100; close := 101;
       volume := 3 |} ].

Definition overflowed_storage : DataStorage :=
  {| tick_buffer := ∅;
     resampled_data := {[ "btcusdt" := {[ "1m" := overflowed_bars ]} ]} |}.

(** Ticks that lead to [overflowed_bars]: two trades of 1e308 units within
    the first minute. *)
Definition overflowing_ticks : list Tick :=
  [ mkTick "btcusdt" 1000 100 1e308;
    mkTick "btcusdt" 2000 101 1e308;
    mkTick "btcusdt" 3000 99 0;
    mkTick "btcusdt" 4000 100.5 0;
    mkTick "btcusdt" 61000 100.5 1;
    mkTick "btcusdt" 62000 102 1;
    mkTick "btcusdt" 63000 100 0.5;
    mkTick "btcusdt" 64000 101 0.5 ].


(** Tables of ten one-minute bars for two symbols; the closes of the second
    do not move. *)
Definition bars_of (closes : Series) : list Bar :=
  map (λ r, {| ts := r.1; open := r.2; high := r.2; low := r.2; close := r.2;
               volume := 1 |}) closes.

Definition flat_pair_storage : DataStorage :=
  {| tick_buffer := ∅;
     resampled_data :=
       {[ "btcusdt" := {[ "1m" := bars_of closes_ten_a ]};
          "ethusdt" := {[ "1m" := bars_of closes_ten_flat ]} ]} |}.

(** Ticks out of time order, three of them at the same millisecond: 103,
    then 101, then 102 arrive at 2000. *)
Definition same_time_ticks : list Tick :=
  [ mkTick "btcusdt" 2000 103 1;
    mkTick "btcusdt" 1000 100 2;
    mkTick "btcusdt" 2000 101 0.5;
    mkTick "btcusdt" 2000 102 2 ].

(** Two trades stamped beyond what the 64-bit nanosecond clock holds. *)
Definition far_ticks : list Tick :=
  [ mkTick "xrpusdt" 10000000000000000 1 1;
    mkTick "xrpusdt" 10000000000001000 1 1 ].

End Reference.

(** * The predicates used in the statements *)

Module Predicates.
Import Analytics.
Import Api.
Import Reference.

(** ** The payload predicates used in the statements *)

(** A point [[timestamp, value]] whose value is a finite number. *)
Definition finite_point (p : pyval) : Prop :=
  ∃ t v, p = PList [PStr t; PFloat v] ∧ is_nan v = false ∧ is_infinity v = false.

(** Two points of the list carry different values. *)
Definition two_values (l : list pyval) : Prop :=
  ∃ t1 v1 t2 v2,
    PList [PStr t1; PFloat v1] ∈ l ∧ PList [PStr t2; PFloat v2] ∈ l ∧ feqb v1 v2 = false.

(** What the gate leaves: nothing, or at least two finite points that are
    not all equal. *)
Definition gated (l : list pyval) : Prop :=
  l = [] ∨ ((2 ≤ length l)%nat ∧ Forall finite_point l ∧ two_values l).

(** A row of a series survives [replace_inf] and [dropna]. *)
Definition finite_row (r : Z * float) : bool :=
  negb (is_nan r.2) && negb (is_infinity r.2).

(** The keys of a dict payload, in order. *)
Definition keys (v : pyval) : list string :=
  match v with
  | PDict d => map fst d
  | _ => []
  end.

(** The keys of a full result, in order. *)
Definition result_keys : list string :=
  ["symbol1"; "symbol2"; "hedge_ratio"; "r_squared"; "current_spread";
   "current_zscore"; "current_correlation"; "stats"; "adf_test"; "series"].

(** What the rolling deviation of the library gives on a full window of
    equal finite values: exactly zero when the window holds two values or
    more, a missing value on a window of one value (a sample deviation needs
    two observations). Infinite values are missing to the rolling routines
    and are left out. *)
Definition deviation_on_constant_windows {num : Numerics} : Prop :=
  ∀ (window : Z) (vals : list float) (i : nat),
    constant_window vals window i = true →
    is_infinity (at_row vals i) = false →
    let deviation := at_row (rolling_std window vals) i in
    if decide (window = 1) then is_nan deviation = true
    else feqb deviation 0 = true.

(** An explicit error marker: a dict whose only key is ["error"]. *)
Definition error_marker (v : pyval) : bool := bool_decide (keys v = ["error"]).

(** No field of the item is missing. *)
Definition no_field_missing (b : BarJson) : Prop :=
  is_nan (json_open b) = false ∧ is_nan (json_high b) = false
  ∧ is_nan (json_low b) = false ∧ is_nan (json_close b) = false
  ∧ is_nan (json_volume b) = false.

(** Every field of the item is a finite number. *)
Definition all_fields_finite (b : BarJson) : Prop :=
  no_field_missing b
  ∧ is_infinity (json_open b) = false ∧ is_infinity (json_high b) = false
  ∧ is_infinity (json_low b) = false ∧ is_infinity (json_close b) = false
  ∧ is_infinity (json_volume b) = false.

(** The ticks of [ticks], in time order and, at one timestamp, in arrival
    order, whose timestamp falls in the bin of [seconds] seconds that starts
    at [start]. *)
Definition ticks_in_bin (seconds start : Z) (ticks : list Storage.Tick)
  : list Storage.Tick :=
  List.filter (λ t, (start <=? Storage.timestamp t) && (Storage.timestamp t <? start + seconds * 1000))
    (Storage.sort_by_time ticks).

(** No float of the payload, at any depth, is NaN or infinite: the payload
    can be written as JSON. *)
Fixpoint json_safe (v : pyval) : bool :=
  match v with
  | PFloat x => negb (is_nan x) && negb (is_infinity x)
  | PList items =>
      (fix all (l : list pyval) : bool :=
         match l with
         | [] => true
         | x :: rest => json_safe x && all rest
         end) items
  | PDict entries =>
      (fix all (l : list (string * pyval)) : bool :=
         match l with
         | [] => true
         | (_, x) :: rest => json_safe x && all rest
         end) entries
  | _ => true
  end.

(** The payload is made of scalars and dicts only. *)
Fixpoint no_lists (v : pyval) : bool :=
  match v with
  | PList _ => false
  | PDict entries =>
      (fix all (l : list (string * pyval)) : bool :=
         match l with
         | [] => true
         | (_, x) :: rest => no_lists x && all rest
         end) entries
  | _ => true
  end.

(** The point that [series_to_list_safe] makes of a row. *)
Definition point_of {fmt : TimeFormat} (r : Z * float) : pyval :=
  PList [PStr (isoformat r.1); PFloat r.2].

(** Induction on payloads, with the items of a list and the values of a
    dict as induction hypotheses. *)
Fixpoint pyval_induction (P : pyval → Prop)
  (Hnone : P PNone) (Hbool : ∀ b, P (PBool b)) (Hint : ∀ n, P (PInt n))
  (Hfloat : ∀ x, P (PFloat x)) (Hstr : ∀ s, P (PStr s))
  (Hlist : ∀ items, List.Forall P items → P (PList items))
  (Hdict : ∀ entries, List.Forall (λ e, P e.2) entries → P (PDict entries))
  (v : pyval) {struct v} : P v :=
  match v with
  | PNone => Hnone
  | PBool b => Hbool b
  | PInt n => Hint n
  | PFloat x => Hfloat x
  | PStr s => Hstr s
  | PList items =>
      Hlist items
        ((fix go (l : list pyval) : List.Forall P l :=
            match l with
            | [] => @List.Forall_nil _ P
            | x :: rest =>
                @List.Forall_cons _ P x rest
                  (pyval_induction P Hnone Hbool Hint Hfloat Hstr Hlist Hdict x) (go rest)
            end) items)
  | PDict entries =>
      Hdict entries
        ((fix go (l : list (string * pyval)) : List.Forall (λ e, P e.2) l :=
            match l with
            | [] => @List.Forall_nil _ (λ e, P e.2)
            | e :: rest =>
                @List.Forall_cons _ (λ e, P e.2) e rest
                  (pyval_induction P Hnone Hbool Hint Hfloat Hstr Hlist Hdict e.2) (go rest)
            end) entries)
  end.

(** The stored table of a symbol and timeframe, empty when there is none. *)
Definition stored (st : Storage.DataStorage) (sym tf : string)
  : list Storage.Bar :=
  default [] (Storage.resampled_data st !! sym ≫= (.!! tf)).

(** The calls of one pass: each listed symbol with each configured
    timeframe. *)
Definition jobs (symbols : list string) : list (string * (string * Z)) :=
  symbols ≫= λ sym, map (λ job, (sym, job)) Api.TIMEFRAMES.

Definition run_job {agg : Storage.GroupAgg} (p : Api.pass)
  (job : string * (string * Z)) : Api.pass :=
  Api.resample_job p job.1 job.2.

(** A call of [resample_to_ohlcv] that stores a frame: two ticks or more, a
    positive bin width that the clock holds, and a resampler that accepts
    the bins of the last 1000 buffered ticks. *)
Definition accepted {agg : Storage.GroupAgg} (st : Storage.DataStorage) (sym : string)
  (seconds : Z) : Prop :=
  (2 ≤ length (Storage.buffer st sym))%nat ∧ 0 < seconds ≤ Storage.max_bin_seconds
  ∧ Storage.resample_rejects seconds
      (map Storage.timestamp
         (drop (length (Storage.buffer st sym) - 1000) (Storage.buffer st sym))) = false.

#[export] Instance accepted_dec {agg : Storage.GroupAgg} st sym seconds
  : Decision (accepted st sym seconds) := ltac:(unfold accepted; apply _).

(** The calls of [l] on [st]: each finds fewer than two ticks or is
    accepted. *)
Definition calls_accepted {agg : Storage.GroupAgg} (st : Storage.DataStorage)
  (l : list (string * (string * Z))) : Prop :=
  Forall (λ job, (length (Storage.buffer st job.1) < 2)%nat ∨ accepted st job.1 job.2.2) l.

(** The resampler accepts every call of a pass over [symbols] on [st]. *)
Definition pass_accepted {agg : Storage.GroupAgg} (st : Storage.DataStorage)
  (symbols : list string) : Prop :=
  ∀ sym tf seconds,
    sym ∈ symbols → (tf, seconds) ∈ Api.TIMEFRAMES →
    Storage.resample_rejects seconds
      (map Storage.timestamp (Storage.get_recent_ticks st sym 1000).1) = false.

End Predicates.

(** * Properties of the tick buffer and the resampler *)

Module StorageProps.
Import Storage.

Lemma py_slice_from_last {A} (n : Z) (l : list A) :
  0 < n → py_slice_from (- n) l = drop (length l - Z.to_nat n) l.
Proof.
  intros Hn. unfold py_slice_from.
  destruct (decide (0 ≤ - n)) as [Hle | _]; [lia |].
  f_equal. lia.
Qed.

Lemma deque_append_drop (cap : nat) (fed : list Tick) (t : Tick) :
  deque_append cap (drop (length fed - cap) fed) t
  = drop (length (fed ++ [t]) - cap) (fed ++ [t]).
Proof.
  unfold deque_append. cbv zeta.
  rewrite !length_app, length_drop. cbn [length].
  destruct (decide (cap < length fed - (length fed - cap) + 1)%nat) as [Hlt | Hge].
  - assert (Hfull : (cap ≤ length fed)%nat) by lia.
    destruct (decide (cap = 0%nat)) as [-> | Hpos].
    + rewrite Nat.sub_0_r, drop_all. cbn [app drop].
      rewrite drop_ge; [done |]. rewrite length_app. cbn [length]. lia.
    + rewrite <- (drop_app_le fed [t] (length fed - cap)) by lia.
      rewrite drop_drop. f_equal. lia.
  - rewrite drop_app_le by lia. f_equal. f_equal. lia.
Qed.

Lemma buffer_getitem (sym sym' : string) (tb : gmap string (list Tick)) :
  default [] ((tick_buffer_getitem sym tb).2 !! sym') = default [] (tb !! sym').
Proof.
  unfold tick_buffer_getitem. destruct (tb !! sym) as [d |] eqn:E; [done |].
  cbn [snd]. destruct (decide (sym = sym')) as [<- | Hne].
  - by rewrite lookup_insert_eq, E.
  - by rewrite lookup_insert_ne.
Qed.

Lemma getitem_fst (sym : string) (tb : gmap string (list Tick)) :
  (tick_buffer_getitem sym tb).1 = default [] (tb !! sym).
Proof. unfold tick_buffer_getitem. by destruct (tb !! sym). Qed.

Lemma getitem_dom (sym : string) (tb : gmap string (list Tick)) :
  dom (tick_buffer_getitem sym tb).2 = {[sym]} ∪ dom tb.
Proof.
  unfold tick_buffer_getitem. destruct (tb !! sym) as [d |] eqn:E; cbn [snd].
  - apply (elem_of_dom_2 (D := gset string)) in E. set_solver.
  - by rewrite dom_insert_L.
Qed.

Section Calls.
Context {agg : GroupAgg}.

Lemma tick_buffer_get_recent_ticks st sym limit :
  tick_buffer (get_recent_ticks st sym limit).2 = (tick_buffer_getitem sym (tick_buffer st)).2.
Proof. unfold get_recent_ticks. by destruct (tick_buffer_getitem sym (tick_buffer st)). Qed.

(** For a positive [limit] the call returns the last [limit] ticks of the
    deque, oldest first. *)
Lemma get_recent_ticks_last st sym limit :
  0 < limit →
  (get_recent_ticks st sym limit).1
  = drop (length (buffer st sym) - Z.to_nat limit) (buffer st sym).
Proof.
  intros Hpos. unfold get_recent_ticks, buffer. rewrite <- getitem_fst.
  destruct (tick_buffer_getitem sym (tick_buffer st)) as [ticks tb]. cbn [fst].
  case_decide as Hlen.
  - by apply py_slice_from_last.
  - replace (length ticks - Z.to_nat limit)%nat with 0%nat by lia. done.
Qed.

Lemma tick_buffer_resample st sym tf seconds :
  tick_buffer (resample_to_ohlcv st sym tf seconds).2 = (tick_buffer_getitem sym (tick_buffer st)).2.
Proof.
  unfold resample_to_ohlcv.
  pose proof (tick_buffer_get_recent_ticks st sym 1000) as E.
  destruct (get_recent_ticks st sym 1000) as [ticks st1]. cbn [snd] in E.
  repeat case_decide; try done;
    by destruct (resample_rejects seconds (map timestamp ticks)).
Qed.

Lemma tick_buffer_add_tick st tick :
  tick_buffer (add_tick st tick)
  = <[symbol tick := deque_append maxlen (buffer st (symbol tick)) tick]>
      (tick_buffer_getitem (symbol tick) (tick_buffer st)).2.
Proof.
  unfold add_tick, buffer. rewrite <- getitem_fst.
  by destruct (tick_buffer_getitem (symbol tick) (tick_buffer st)).
Qed.

(** What one call does to the deque of [sym]. *)
Lemma buffer_step st c sym :
  buffer (step st c) sym =
  match c with
  | CallAddTick tick =>
      if decide (symbol tick = sym) then deque_append maxlen (buffer st sym) tick
      else buffer st sym
  | _ => buffer st sym
  end.
Proof.
  destruct c as [tick | s l | | s tf l | s tf secs]; cbn [step]; try done.
  - unfold buffer at 1. rewrite tick_buffer_add_tick.
    case_decide as E.
    + subst sym. by rewrite lookup_insert_eq.
    + rewrite lookup_insert_ne by done. apply buffer_getitem.
  - unfold buffer. rewrite tick_buffer_get_recent_ticks. apply buffer_getitem.
  - unfold buffer. rewrite tick_buffer_resample. apply buffer_getitem.
Qed.

Lemma run_snoc calls c st : run (calls ++ [c]) st = step (run calls st) c.
Proof. unfold run. by rewrite fold_left_app. Qed.

Lemma ticks_added_snoc sym calls c :
  ticks_added sym (calls ++ [c]) =
  ticks_added sym calls ++
  match c with
  | CallAddTick tick => if decide (symbol tick = sym) then [tick] else []
  | _ => []
  end.
Proof.
  unfold ticks_added. rewrite omap_app. f_equal.
  destruct c; cbn; try done. by case_decide.
Qed.

(** The deque of a symbol holds the last [maxlen] ticks added for it. *)
Lemma buffer_run calls sym :
  buffer (run calls new_storage) sym
  = drop (length (ticks_added sym calls) - maxlen) (ticks_added sym calls).
Proof.
  induction calls as [| c calls IH] using rev_ind; [done |].
  rewrite run_snoc, buffer_step, ticks_added_snoc.
  destruct c as [tick | | | |]; rewrite ?app_nil_r; try exact IH.
  case_decide; rewrite ?app_nil_r; [| exact IH].
  rewrite IH. apply deque_append_drop.
Qed.

(** C8. Whatever calls are made on a fresh storage object, the deque of each
    symbol never holds more than 10,000 ticks, and it holds exactly the last
    10,000 ticks passed to [add_tick] for that symbol, oldest first (all of
    them while there are at most 10,000). *)
Theorem tick_buffer_keeps_last_maxlen (calls : list call) (sym : string) :
  let fed := ticks_added sym calls in
  let buf := buffer (run calls new_storage) sym in
  maxlen = 10000%nat
  ∧ (length buf ≤ maxlen)%nat
  ∧ length buf = (length fed `min` maxlen)%nat
  ∧ buf = drop (length fed - maxlen) fed
  ∧ ∃ evicted, fed = evicted ++ buf ∧ length evicted = (length fed - maxlen)%nat.
Proof.
  cbv zeta. rewrite buffer_run. split; [| split; [| split; [| split]]].
  - reflexivity.
  - rewrite length_drop. lia.
  - rewrite length_drop. lia.
  - done.
  - exists (take (length (ticks_added sym calls) - maxlen) (ticks_added sym calls)).
    split; [by rewrite take_drop |]. rewrite length_take. lia.
Qed.

(** The keys of [tick_buffer]: the symbols that were given a tick together
    with the symbols whose deque was only read. *)
Lemma get_all_symbols_step st c :
  get_all_symbols (step st c) =
  get_all_symbols st ∪
  match c with
  | CallAddTick tick => {[symbol tick]}
  | CallGetRecentTicks sym _ => {[sym]}
  | CallResample sym _ _ => {[sym]}
  | _ => ∅
  end.
Proof.
  unfold get_all_symbols.
  destruct c as [tick | s l | | s tf l | s tf secs]; cbn [step].
  - rewrite tick_buffer_add_tick, dom_insert_L, getitem_dom. set_solver.
  - rewrite tick_buffer_get_recent_ticks, getitem_dom. set_solver.
  - set_solver.
  - set_solver.
  - rewrite tick_buffer_resample, getitem_dom. set_solver.
Qed.

Lemma get_all_symbols_run calls :
  get_all_symbols (run calls new_storage) = symbols_added calls ∪ symbols_read calls.
Proof.
  induction calls as [| c calls IH] using rev_ind.
  - unfold get_all_symbols. cbn. rewrite dom_empty_L. set_solver.
  - rewrite run_snoc, get_all_symbols_step, IH.
    unfold symbols_added, symbols_read. rewrite !omap_app, !list_to_set_app_L.
    destruct c; cbn; set_solver.
Qed.

(** C5 (the code departs from the claim). Reading the ticks of a symbol
    that never received one makes [get_all_symbols] list that symbol: after
    the single call [get_recent_ticks("ethusdt")] on a fresh storage object
    the symbol is reported although no tick was added and its deque is
    empty. *)
Theorem get_all_symbols_lists_symbol_only_read :
  let calls := [CallGetRecentTicks "ethusdt" 1000] in
  let st := run calls new_storage in
  get_all_symbols st = {["ethusdt"]}
  ∧ symbols_added calls = ∅
  ∧ ticks_added "ethusdt" calls = []
  ∧ buffer st "ethusdt" = [].
Proof.
  cbv zeta. split; [| split; [| split]].
  - rewrite get_all_symbols_run. cbn. set_solver.
  - cbn. set_solver.
  - reflexivity.
  - rewrite buffer_run. reflexivity.
Qed.

Lemma getitem_idem sym (tb : gmap string (list Tick)) :
  let r := tick_buffer_getitem sym tb in
  tick_buffer_getitem sym r.2 = (r.1, r.2).
Proof.
  unfold tick_buffer_getitem. destruct (tb !! sym) as [d |] eqn:E; cbn [fst snd].
  - by rewrite E.
  - by rewrite lookup_insert_eq.
Qed.

Lemma get_recent_ticks_again st sym limit :
  let r := get_recent_ticks st sym limit in
  get_recent_ticks r.2 sym limit = r.
Proof.
  cbv zeta. unfold get_recent_ticks.
  pose proof (getitem_idem sym (tick_buffer st)) as E. cbv zeta in E.
  destruct (tick_buffer_getitem sym (tick_buffer st)) as [ticks tb].
  cbn [snd fst tick_buffer resampled_data] in *. by rewrite E.
Qed.

Lemma resampled_data_set_again sym tf ohlcv rd :
  resampled_data_set sym tf ohlcv (resampled_data_set sym tf ohlcv rd)
  = resampled_data_set sym tf ohlcv rd.
Proof.
  unfold resampled_data_set.
  rewrite lookup_insert_eq. cbn.
  by rewrite !insert_insert_eq.
Qed.

(** The frame handed back is a function of the deque of the symbol alone. *)
Lemma resample_to_ohlcv_snapshot st st' sym tf seconds :
  buffer st sym = buffer st' sym →
  (resample_to_ohlcv st sym tf seconds).1 = (resample_to_ohlcv st' sym tf seconds).1.
Proof.
  intros E. unfold resample_to_ohlcv, get_recent_ticks.
  pose proof (getitem_fst sym (tick_buffer st)) as E1.
  pose proof (getitem_fst sym (tick_buffer st')) as E2.
  destruct (tick_buffer_getitem sym (tick_buffer st)) as [t1 tb1].
  destruct (tick_buffer_getitem sym (tick_buffer st')) as [t2 tb2].
  cbn [fst] in E1, E2. unfold buffer in E. rewrite <- E1, <- E2 in E. subst t2.
  repeat case_decide; try done; by destruct (resample_rejects seconds _).
Qed.

(** C6. Resampling the same buffer twice: the second call hands back the same
    bars as the first, and leaves the whole in-memory state, so in
    particular the table of (symbol, timeframe), as the first call left
    it. *)
Theorem resample_to_ohlcv_idempotent (st : DataStorage) (sym tf : string) (seconds : Z) :
  let first := resample_to_ohlcv st sym tf seconds in
  let second := resample_to_ohlcv first.2 sym tf seconds in
  second.1 = first.1
  ∧ resampled_data second.2 !! sym = resampled_data first.2 !! sym
  ∧ get_ohlcv second.2 sym tf 1000 = get_ohlcv first.2 sym tf 1000
  ∧ second.2 = first.2.
Proof.
  cbv zeta.
  assert (E : resample_to_ohlcv (resample_to_ohlcv st sym tf seconds).2 sym tf seconds
              = resample_to_ohlcv st sym tf seconds).
  { unfold resample_to_ohlcv at 2 3.
    pose proof (get_recent_ticks_again st sym 1000) as E. cbv zeta in E.
    destruct (get_recent_ticks st sym 1000) as [ticks st1] eqn:E1. cbn [snd] in E.
    destruct (decide (length ticks < 2)%nat) as [Hlt | Hge].
    { cbn [snd]. unfold resample_to_ohlcv. rewrite E. by rewrite decide_True. }
    destruct (decide (seconds ≤ 0)) as [Hs | Hs].
    { cbn [snd]. unfold resample_to_ohlcv. rewrite E.
      rewrite decide_False by done. by rewrite decide_True. }
    destruct (decide (max_bin_seconds < seconds)) as [Hw | Hw].
    { cbn [snd]. unfold resample_to_ohlcv. rewrite E.
      rewrite !decide_False by done. by rewrite decide_True. }
    destruct (resample_rejects seconds (map timestamp ticks)) eqn:Hrej.
    { cbn [snd]. unfold resample_to_ohlcv. rewrite E.
      rewrite !decide_False by done. by rewrite Hrej. }
    cbn [snd]. unfold resample_to_ohlcv.
    assert (E' : get_recent_ticks
                   {| tick_buffer := tick_buffer st1;
                      resampled_data := resampled_data_set sym tf (resample seconds ticks)
                                          (resampled_data st1) |} sym 1000
                 = (ticks, {| tick_buffer := tick_buffer st1;
                      resampled_data := resampled_data_set sym tf (resample seconds ticks)
                                          (resampled_data st1) |})).
    { unfold get_recent_ticks in E |- *. cbn [tick_buffer resampled_data].
      destruct (tick_buffer_getitem sym (tick_buffer st1)) as [t' tb'].
      injection E as E2 E3. rewrite E2. f_equal.
      rewrite <- E3. reflexivity. }
    rewrite E'. rewrite !decide_False by done. rewrite Hrej.
    cbn [tick_buffer resampled_data]. by rewrite resampled_data_set_again. }
  by rewrite E.
Qed.

End Calls.
End StorageProps.
(** * Properties of the pair analytics *)

Module AnalyticsProps.
Import Analytics.
Import Reference.
Import Predicates.

(** ** Binary64 facts *)

Lemma is_nan_of_spec (x : float) : Prim2SF x = S754_nan → is_nan x = true.
Proof.
  intros E. unfold PrimFloat.is_nan. by rewrite FloatAxioms.eqb_spec, E.
Qed.

(** A quotient by a missing value is missing. *)
Lemma div_nan_is_nan (x : float) : is_nan (PrimFloat.div x fnan) = true.
Proof.
  apply is_nan_of_spec. rewrite FloatAxioms.div_spec.
  change (Prim2SF fnan) with S754_nan.
  unfold FloatAxioms.SF64div, SFdiv. by destruct (Prim2SF x).
Qed.

Lemma spec_of_is_nan (x : float) : is_nan x = true → Prim2SF x = S754_nan.
Proof.
  unfold PrimFloat.is_nan. rewrite FloatAxioms.eqb_spec.
  destruct (Prim2SF x) as [s | s | | s m e]; [by destruct s | by destruct s | done |].
  unfold SFeqb, SFcompare.
  destruct s; rewrite Z.compare_refl, Pos.compare_cont_refl; done.
Qed.

Lemma div_missing_is_nan (x d : float) : is_nan d = true → is_nan (PrimFloat.div x d) = true.
Proof.
  intros Hd%spec_of_is_nan. apply is_nan_of_spec. rewrite FloatAxioms.div_spec, Hd.
  unfold FloatAxioms.SF64div, SFdiv. by destruct (Prim2SF x).
Qed.

(** ** Lists of values *)

Lemma distinct_subseteq (l : list float) x : x ∈ distinct l → x ∈ l.
Proof.
  induction l as [| y l IH]; cbn; [done |].
  destruct (existsb (feqb y) l).
  - intros Hx. right. by apply IH.
  - intros [-> | Hx]%elem_of_cons; [left | right; by apply IH].
Qed.

Lemma distinct_two (l : list float) :
  (2 ≤ length (distinct l))%nat → ∃ x y, x ∈ l ∧ y ∈ l ∧ feqb x y = false.
Proof.
  induction l as [| a l IH]; cbn; [lia |].
  destruct (existsb (feqb a) l) eqn:E.
  - intros Hlen. destruct (IH Hlen) as (x & y & Hx & Hy & Hxy).
    exists x, y. split_and!; [by right | by right | done].
  - cbn. intros Hlen.
    destruct (distinct l) as [| b rest] eqn:Ed; [cbn in Hlen; lia |].
    assert (Hb : b ∈ l) by (apply distinct_subseteq; rewrite Ed; left).
    exists a, b. split_and!; [left | by right |].
    destruct (feqb a b) eqn:Eab; [| done].
    assert (existsb (feqb a) l = true) as Habs; [| congruence].
    apply existsb_exists. exists b. split; [by apply list_elem_of_In | done].
Qed.

Lemma existsb_false_elem {A} (f : A → bool) (l : list A) x :
  existsb f l = false → x ∈ l → f x = false.
Proof.
  intros E Hx. destruct (f x) eqn:Ex; [| done].
  assert (existsb f l = true) as Habs; [| congruence].
  apply existsb_exists. exists x. split; [by apply list_elem_of_In | done].
Qed.

(** ** The aligned frame *)

Lemma series_at_present (s : Series) (t : Z) :
  is_nan (series_at s t) = false → t ∈ index s.
Proof.
  unfold series_at, index.
  destruct (List.find (λ r : Z * float, r.1 =? t) s) as [r |] eqn:E; [| done].
  intros _. apply find_some in E as [Hin Heq].
  apply Z.eqb_eq in Heq. subst t.
  apply list_elem_of_fmap. exists r. split; [done | by apply list_elem_of_In].
Qed.

Lemma elem_of_union_index (i1 i2 : list Z) (t : Z) :
  t ∈ union_index i1 i2 ↔ t ∈ i1 ∨ t ∈ i2.
Proof.
  unfold union_index. case_decide as E.
  - subst. tauto.
  - rewrite merge_sort_Permutation, elem_of_remove_dups, elem_of_app. tauto.
Qed.

Lemma NoDup_union_index (i1 i2 : list Z) : NoDup i1 → NoDup (union_index i1 i2).
Proof.
  intros Hnd. unfold union_index. case_decide; [done |].
  rewrite merge_sort_Permutation. apply NoDup_remove_dups.
Qed.

Lemma frame_labels_filter (f : Z * (float * float) → bool) (g : Z → float * float)
  (idx : list Z) :
  map fst (List.filter f (map (λ t, (t, g t)) idx))
  = List.filter (λ t, f (t, g t)) idx.
Proof.
  induction idx as [| t idx IH]; [done |].
  cbn [map List.filter]. destruct (f (t, g t)); cbn [map fst]; by rewrite IH.
Qed.

(** The labels of the aligned frame: the timestamps at which both series
    have a value, each once when a series does not repeat a label. *)
Lemma aligned_labels (prices1 prices2 : Series) (t : Z) :
  t ∈ map fst (aligned prices1 prices2)
  ↔ is_nan (series_at prices1 t) = false ∧ is_nan (series_at prices2 t) = false.
Proof.
  unfold aligned, dropna_frame, frame2.
  rewrite (frame_labels_filter (λ r, notna r.2.1 && notna r.2.2)
             (λ t, (series_at prices1 t, series_at prices2 t))).
  rewrite list_elem_of_In, filter_In, <- list_elem_of_In, elem_of_union_index.
  cbn [fst snd]. unfold notna. rewrite andb_true_iff, !negb_true_iff.
  split; [tauto |]. intros [H1 H2]. split; [| done].
  left. by apply series_at_present.
Qed.

Lemma aligned_labels_NoDup (prices1 prices2 : Series) :
  NoDup (index prices1) → NoDup (map fst (aligned prices1 prices2)).
Proof.
  intros Hnd. unfold aligned, dropna_frame, frame2.
  rewrite (frame_labels_filter (λ r, notna r.2.1 && notna r.2.2)
             (λ t, (series_at prices1 t, series_at prices2 t))).
  apply NoDup_ListNoDup, List.NoDup_filter, NoDup_ListNoDup.
  by apply NoDup_union_index.
Qed.

Section Gate.
Context {num : Numerics} {fmt : TimeFormat}.

Lemma is_plot_safe_inv (s : Series) (min_points : Z) :
  is_plot_safe s min_points = true →
  min_points ≤ Z.of_nat (length s)
  ∧ existsb is_nan (values s) = false
  ∧ existsb is_infinity (values s) = false
  ∧ (2 ≤ nunique s)%nat.
Proof.
  unfold is_plot_safe.
  destruct (decide (Z.of_nat (length s) < min_points)) as [| Hlen]; [done |].
  destruct (existsb is_nan (values s)); [done |].
  destruct (existsb is_infinity (values s)); [done |].
  cbn [orb]. destruct (decide (nunique s ≤ 1)%nat) as [| Hu]; [done |].
  intros _. split; [lia |]. split; [done |]. split; [done | lia].
Qed.

(** On a series with no missing and no infinite value the conversion loop
    of [series_to_list_safe] keeps every row. *)
Lemma points_of_clean_series (s : Series) :
  existsb is_nan (values s) = false →
  existsb is_infinity (values s) = false →
  omap (λ r : Z * float, if is_nan r.2 || is_infinity r.2 then None
             else Some (PList [PStr (isoformat r.1); PFloat r.2])) s
  = map (λ r : Z * float, PList [PStr (isoformat r.1); PFloat r.2]) s.
Proof.
  unfold values. induction s as [| [t v] s IH]; [done |].
  cbn [map existsb omap list_omap fst snd].
  intros [E1 E2]%orb_false_elim [E3 E4]%orb_false_elim.
  rewrite E1, E3. cbn [orb]. f_equal. by apply IH.
Qed.

(** Whatever the series, [series_to_list_safe] hands back a gated list. *)
Lemma series_to_list_safe_gated (s : Series) : gated (series_to_list_safe s).
Proof.
  unfold series_to_list_safe.
  destruct (is_plot_safe s 3) eqn:Esafe; cbn [negb]; [| by left].
  apply is_plot_safe_inv in Esafe as (Hlen & Hnan & Hinf & Huniq).
  rewrite points_of_clean_series by done.
  case_decide as Hshort; [by left |]. right.
  rewrite length_map in Hshort |- *. split_and!.
  - lia.
  - apply Forall_forall. intros p (r & -> & Hr)%list_elem_of_fmap.
    exists (isoformat r.1), r.2. split_and!; [done | |].
    + apply (existsb_false_elem _ _ _ Hnan). unfold values.
      apply list_elem_of_fmap. by exists r.
    + apply (existsb_false_elem _ _ _ Hinf). unfold values.
      apply list_elem_of_fmap. by exists r.
  - destruct (distinct_two _ Huniq) as (x & y & Hx & Hy & Hxy).
    apply list_elem_of_In, filter_In in Hx as [Hx%list_elem_of_In _].
    apply list_elem_of_In, filter_In in Hy as [Hy%list_elem_of_In _].
    unfold values in Hx, Hy.
    apply list_elem_of_fmap in Hx as (rx & -> & Hrx).
    apply list_elem_of_fmap in Hy as (ry & -> & Hry).
    exists (isoformat rx.1), rx.2, (isoformat ry.1), ry.2. split_and!; [| | done].
    + apply list_elem_of_fmap. by exists rx.
    + apply list_elem_of_fmap. by exists ry.
Qed.

Lemma result_literal (a b c d e f g h i j : pyval) :
  dict_literal
    [("symbol1", a); ("symbol2", b); ("hedge_ratio", c); ("r_squared", d);
     ("current_spread", e); ("current_zscore", f); ("current_correlation", g);
     ("stats", h); ("adf_test", i); ("series", j)]
  = [("symbol1", a); ("symbol2", b); ("hedge_ratio", c); ("r_squared", d);
     ("current_spread", e); ("current_zscore", f); ("current_correlation", g);
     ("stats", h); ("adf_test", i); ("series", j)].
Proof. reflexivity. Qed.

Lemma series_literal (a b c : pyval) :
  dict_literal [("spread", a); ("zscore", b); ("correlation", c)]
  = [("spread", a); ("zscore", b); ("correlation", c)].
Proof. reflexivity. Qed.

Lemma insufficient_payload (observed required : Z) :
  insufficient observed required
  = PDict [("error", PStr ("Insufficient aligned data: " +:+ pretty observed
                           +:+ " points, need at least " +:+ pretty required))].
Proof. reflexivity. Qed.

(** The payload of a call whose aligned frame is long enough. *)
Lemma analyze_pair_sufficient symbol1 symbol2 prices1 prices2 window :
  min_required window ≤ Z.of_nat (length (aligned prices1 prices2)) →
  analyze_pair symbol1 symbol2 prices1 prices2 window =
  PDict
    [("symbol1", PStr symbol1);
     ("symbol2", PStr symbol2);
     ("hedge_ratio", sanitize_value (PFloat (pair_hedge prices1 prices2).1));
     ("r_squared", sanitize_value (PFloat (pair_hedge prices1 prices2).2));
     ("current_spread", sanitize_value (iloc_last (pair_spread prices1 prices2)));
     ("current_zscore", sanitize_value (iloc_last (pair_zscore prices1 prices2 window)));
     ("current_correlation",
      sanitize_value (iloc_last (pair_correlation prices1 prices2 window)));
     ("stats", PDict (dict_literal
        [(symbol1, sanitize_dict (compute_basic_stats (column1 (aligned prices1 prices2))));
         (symbol2, sanitize_dict (compute_basic_stats (column2 (aligned prices1 prices2))));
         ("spread", sanitize_dict (compute_basic_stats (pair_spread prices1 prices2)))]));
     ("adf_test", sanitize_dict (augmented_dickey_fuller_test (pair_spread prices1 prices2)));
     ("series", PDict
        [("spread", PList (series_to_list_safe (pair_spread prices1 prices2)));
         ("zscore", PList (series_to_list_safe (pair_zscore prices1 prices2 window)));
         ("correlation",
          PList (series_to_list_safe (pair_correlation prices1 prices2 window)))])].
Proof.
  intros Hlen. unfold analyze_pair.
  rewrite decide_False by lia.
  destruct (pair_hedge prices1 prices2) as [hedge_ratio r_squared].
  cbv zeta. by rewrite result_literal, series_literal.
Qed.

Lemma analyze_pair_short symbol1 symbol2 prices1 prices2 window :
  Z.of_nat (length (aligned prices1 prices2)) < min_required window →
  analyze_pair symbol1 symbol2 prices1 prices2 window
  = insufficient (Z.of_nat (length (aligned prices1 prices2))) (min_required window).
Proof. intros Hlen. unfold analyze_pair. by rewrite decide_True. Qed.

(** C1. In the payload of [analyze_pair] each of the three series (spread,
    zscore, correlation) is gated: it is empty, or it has at least two
    points, all with a finite value, two of which differ. The payload of an
    insufficient-data call has no series at all. *)
Theorem analyze_pair_series_gated symbol1 symbol2 prices1 prices2 window :
  let result := analyze_pair symbol1 symbol2 prices1 prices2 window in
  (result = insufficient (Z.of_nat (length (aligned prices1 prices2))) (min_required window)
   ∧ field "series" result = None)
  ∨ (∃ spread zscore correlation,
       field "series" result
       = Some (PDict [("spread", PList spread); ("zscore", PList zscore);
                      ("correlation", PList correlation)])
       ∧ gated spread ∧ gated zscore ∧ gated correlation).
Proof.
  cbv zeta.
  destruct (decide (Z.of_nat (length (aligned prices1 prices2)) < min_required window))
    as [Hshort | Hlong].
  - left. by rewrite analyze_pair_short.
  - right. rewrite analyze_pair_sufficient by lia.
    eexists _, _, _. split; [reflexivity |].
    split_and!; apply series_to_list_safe_gated.
Qed.

(** C2. When fewer than [max(5, window)] rows are aligned, [analyze_pair]
    returns a dict whose only key is ["error"]; its message carries the
    number of aligned rows and the required minimum, and none of the
    analysis fields is present. *)
Theorem analyze_pair_insufficient symbol1 symbol2 prices1 prices2 window :
  Z.of_nat (length (aligned prices1 prices2)) < Z.max 5 window →
  let result := analyze_pair symbol1 symbol2 prices1 prices2 window in
  let message :=
    "Insufficient aligned data: " +:+ pretty (Z.of_nat (length (aligned prices1 prices2)))
    +:+ " points, need at least " +:+ pretty (Z.max 5 window) in
  result = PDict [("error", PStr message)]
  ∧ keys result = ["error"]
  ∧ Forall (λ k, field k result = None) result_keys.
Proof.
  intros Hshort. cbv zeta. rewrite analyze_pair_short by done.
  rewrite insufficient_payload. split_and!; [done | done |].
  unfold result_keys. repeat (apply Forall_cons; split; [reflexivity |]).
  apply Forall_nil_2.
Qed.

(** ** The calls that return and the calls that raise *)

(** With a window that is not negative and a regression that is skipped or
    accepts its input, no library routine raises: the call returns the
    dict it builds. *)
Lemma analyze_pair_outcome_returns symbol1 symbol2 prices1 prices2 window :
  0 ≤ window →
  (length (aligned prices1 prices2) < 10)%nat
  ∨ linregress_rejects (values (column2 (aligned prices1 prices2))) = false →
  analyze_pair_outcome symbol1 symbol2 prices1 prices2 window
  = Returns (analyze_pair symbol1 symbol2 prices1 prices2 window).
Proof.
  intros Hw Hreg. unfold analyze_pair_outcome. cbv zeta.
  case_decide; [done |].
  assert (Hroll : rolling_rejects window = false) by (apply Z.ltb_ge; lia).
  rewrite Hroll, andb_false_r.
  destruct Hreg as [Hlt | Hacc].
  - rewrite bool_decide_eq_true_2; [done |]. unfold column1. by rewrite length_map.
  - by rewrite Hacc, andb_false_r.
Qed.

(** A call on too few aligned rows returns before any library routine is
    reached. *)
Lemma analyze_pair_outcome_short symbol1 symbol2 prices1 prices2 window :
  Z.of_nat (length (aligned prices1 prices2)) < min_required window →
  analyze_pair_outcome symbol1 symbol2 prices1 prices2 window
  = Returns (analyze_pair symbol1 symbol2 prices1 prices2 window).
Proof. intros Hlen. unfold analyze_pair_outcome. cbv zeta. by rewrite decide_True. Qed.

(** Past the length gate a negative window is rejected, by the regression
    or by the first rolling call. *)
Lemma analyze_pair_outcome_negative symbol1 symbol2 prices1 prices2 window :
  window < 0 →
  5 ≤ Z.of_nat (length (aligned prices1 prices2)) →
  analyze_pair_outcome symbol1 symbol2 prices1 prices2 window = Raises "ValueError".
Proof.
  intros Hw Hlen. unfold analyze_pair_outcome, min_required. cbv zeta.
  rewrite decide_False by lia.
  destruct (negb _ && linregress_rejects _); [done |].
  rewrite (bool_decide_eq_true_2 (window ≤ _)) by lia.
  unfold rolling_rejects. by rewrite (proj2 (Z.ltb_lt window 0) Hw).
Qed.

(** Past the length gate, with ten aligned rows or more, a second series
    whose values are all equal is rejected by the regression. *)
Lemma analyze_pair_outcome_constant symbol1 symbol2 prices1 prices2 window :
  min_required window ≤ Z.of_nat (length (aligned prices1 prices2)) →
  (10 ≤ length (aligned prices1 prices2))%nat →
  linregress_rejects (values (column2 (aligned prices1 prices2))) = true →
  analyze_pair_outcome symbol1 symbol2 prices1 prices2 window = Raises "ValueError".
Proof.
  intros Hlen Hten Hrej. unfold analyze_pair_outcome. cbv zeta.
  rewrite decide_False by lia. rewrite Hrej.
  rewrite bool_decide_eq_false_2; [done |]. unfold column1. rewrite length_map. lia.
Qed.

(** The only exception is [ValueError], and only for these two reasons. *)
Lemma analyze_pair_outcome_raises symbol1 symbol2 prices1 prices2 window e :
  analyze_pair_outcome symbol1 symbol2 prices1 prices2 window = Raises e →
  e = "ValueError"
  ∧ min_required window ≤ Z.of_nat (length (aligned prices1 prices2))
  ∧ (window < 0
     ∨ ((10 ≤ length (aligned prices1 prices2))%nat
        ∧ linregress_rejects (values (column2 (aligned prices1 prices2))) = true)).
Proof.
  unfold analyze_pair_outcome. cbv zeta.
  case_decide as Hlen; [done |].
  destruct (bool_decide (length (column1 (aligned prices1 prices2)) < 10)%nat) eqn:Eten;
    cbn [negb andb].
  - destruct (_ && rolling_rejects window) eqn:Eroll; [| done].
    intros [= <-]. apply andb_prop in Eroll as [_ Hroll%Z.ltb_lt].
    split_and!; [done | lia | by left].
  - apply bool_decide_eq_false in Eten. unfold column1 in Eten. rewrite length_map in Eten.
    destruct (linregress_rejects _) eqn:Erej.
    + intros [= <-]. split_and!; [done | lia |]. right. split; [lia | done].
    + destruct (_ && rolling_rejects window) eqn:Eroll; [| done].
      intros [= <-]. apply andb_prop in Eroll as [_ Hroll%Z.ltb_lt].
      split_and!; [done | lia | by left].
Qed.

(** A call that returns has built its dict, on too few aligned rows or past
    a regression and rolling windows that accept their input. *)
Lemma analyze_pair_outcome_returned symbol1 symbol2 prices1 prices2 window result :
  analyze_pair_outcome symbol1 symbol2 prices1 prices2 window = Returns result →
  result = analyze_pair symbol1 symbol2 prices1 prices2 window
  ∧ (Z.of_nat (length (aligned prices1 prices2)) < min_required window
     ∨ (0 ≤ window
        ∧ ((length (aligned prices1 prices2) < 10)%nat
           ∨ linregress_rejects (values (column2 (aligned prices1 prices2))) = false))).
Proof.
  intros Hret.
  destruct (decide (Z.of_nat (length (aligned prices1 prices2)) < min_required window))
    as [Hshort | Hlong].
  { rewrite analyze_pair_outcome_short in Hret by done. injection Hret as <-.
    split; [done | by left]. }
  destruct (decide (window < 0)) as [Hneg | Hpos].
  { rewrite analyze_pair_outcome_negative in Hret; [done | done |].
    unfold min_required in Hlong. lia. }
  destruct (decide (length (aligned prices1 prices2) < 10)%nat) as [Hfew | Hten].
  { rewrite analyze_pair_outcome_returns in Hret by (by left || lia).
    injection Hret as <-. split; [done |]. right. split; [lia | by left]. }
  destruct (linregress_rejects (values (column2 (aligned prices1 prices2)))) eqn:Hrej.
  { rewrite analyze_pair_outcome_constant in Hret; [done | lia | lia | done]. }
  rewrite analyze_pair_outcome_returns in Hret by (by right || lia).
  injection Hret as <-. split; [done |]. right. split; [lia | by right].
Qed.

(** C3 (amended). For a window that is not negative, with at least
    [max(5, window)] but fewer than 10 aligned rows, the regression is
    skipped and the call returns: the payload is a full result whose hedge
    ratio is exactly 1.0 and whose r-squared is exactly 0.0. *)
Theorem analyze_pair_default_hedge symbol1 symbol2 prices1 prices2 window :
  0 ≤ window →
  Z.max 5 window ≤ Z.of_nat (length (aligned prices1 prices2)) →
  (length (aligned prices1 prices2) < 10)%nat →
  ∃ result,
    analyze_pair_outcome symbol1 symbol2 prices1 prices2 window = Returns result
    ∧ field "hedge_ratio" result = Some (PFloat 1)
    ∧ field "r_squared" result = Some (PFloat 0)
    ∧ field "error" result = None
    ∧ keys result = result_keys.
Proof.
  intros Hw Hlong Hlt. eexists. split.
  { apply analyze_pair_outcome_returns; [done | by left]. }
  rewrite analyze_pair_sufficient by done.
  assert (E : pair_hedge prices1 prices2 = (1%float, 0%float)).
  { unfold pair_hedge, column1. cbv zeta. rewrite length_map. by rewrite decide_True. }
  rewrite E. split_and!; reflexivity.
Qed.

(** ** The error marker of the unit-root test *)

Lemma dict_set_key k v d : k ∈ map fst (dict_set k v d).
Proof.
  induction d as [| [k' v'] d IH]; cbn [dict_set]; [cbn; left |].
  case_decide as E; cbn [map fst].
  - rewrite E. left.
  - right. exact IH.
Qed.

Lemma sanitize_value_no_marker v :
  (∀ entries, v ≠ PDict entries) → error_marker (sanitize_value v) = false.
Proof.
  intros Hv. destruct v as [| b | n | x | s | items | entries]; try done.
  - cbn [sanitize_value]. by destruct (is_nan x || is_infinity x).
  - by destruct (Hv entries).
Qed.

Lemma iloc_last_no_marker s : error_marker (sanitize_value (iloc_last s)) = false.
Proof.
  apply sanitize_value_no_marker. intros entries. unfold iloc_last.
  by destruct (last s).
Qed.

(** C7 (amended). For a window that is not negative, when the aligned frame
    passes the length gate, the regression is skipped or accepts the second
    series, and the spread has fewer than 12 rows, the call returns the full
    payload: all ten keys, no top-level ["error"], the marker of the
    unit-root test under ["adf_test"], and no other field that is an error
    marker. *)
Theorem analyze_pair_short_spread symbol1 symbol2 prices1 prices2 window :
  0 ≤ window →
  Z.max 5 window ≤ Z.of_nat (length (aligned prices1 prices2)) →
  (length (aligned prices1 prices2) < 10)%nat
  ∨ linregress_rejects (values (column2 (aligned prices1 prices2))) = false →
  (length (pair_spread prices1 prices2) < 12)%nat →
  ∃ result,
    analyze_pair_outcome symbol1 symbol2 prices1 prices2 window = Returns result
    ∧ keys result = result_keys
    ∧ field "error" result = None
    ∧ field "adf_test" result
      = Some (PDict [("error", PStr "Insufficient data for ADF test")])
    ∧ (∀ k v, field k result = Some v → error_marker v = true → k = "adf_test").
Proof.
  intros Hw Hlong Hreg Hspread. eexists. split.
  { by apply analyze_pair_outcome_returns. }
  rewrite analyze_pair_sufficient by done.
  assert (E : augmented_dickey_fuller_test (pair_spread prices1 prices2)
              = PDict [("error", PStr "Insufficient data for ADF test")]).
  { unfold augmented_dickey_fuller_test. by rewrite decide_True. }
  rewrite E. split_and!; [reflexivity | reflexivity | reflexivity |].
  intros k v Hk Hv. cbn [field dict_get] in Hk.
  repeat (case_decide as Ek;
          [try (symmetry; exact Ek); injection Hk as <-; clear Ek | clear Ek]);
    [.. | done].
  - done.
  - done.
  - by destruct (is_nan _ || is_infinity _).
  - by destruct (is_nan _ || is_infinity _).
  - by rewrite iloc_last_no_marker in Hv.
  - by rewrite iloc_last_no_marker in Hv.
  - by rewrite iloc_last_no_marker in Hv.
  - apply bool_decide_eq_true in Hv. cbn [keys] in Hv.
    pose proof (dict_set_key "spread"
      (sanitize_dict (compute_basic_stats (pair_spread prices1 prices2)))
      (dict_set symbol2
         (sanitize_dict (compute_basic_stats (column2 (aligned prices1 prices2))))
         (dict_set symbol1
            (sanitize_dict (compute_basic_stats (column1 (aligned prices1 prices2))))
            []))) as Hin.
    change (dict_set "spread" _ _) with
      (dict_literal
        [(symbol1, sanitize_dict (compute_basic_stats (column1 (aligned prices1 prices2))));
         (symbol2, sanitize_dict (compute_basic_stats (column2 (aligned prices1 prices2))));
         ("spread", sanitize_dict (compute_basic_stats (pair_spread prices1 prices2)))])
      in Hin.
    rewrite Hv in Hin. apply list_elem_of_singleton in Hin. done.
  - done.
Qed.


(** ** The inlined stages and the static methods *)

Lemma pair_spread_compute prices1 prices2 :
  pair_spread prices1 prices2
  = compute_spread prices1 prices2 (pair_hedge prices1 prices2).1.
Proof. reflexivity. Qed.

Lemma pair_correlation_compute prices1 prices2 window :
  pair_correlation prices1 prices2 window
  = compute_rolling_correlation prices1 prices2 window.
Proof.
  unfold pair_correlation, compute_rolling_correlation, aligned. cbv zeta.
  repeat case_decide; done || lia.
Qed.

(** The static method answers a short input with a hedge ratio of 0.0, where
    [analyze_pair] uses 1.0. *)
Lemma compute_ols_hedge_ratio_short prices1 prices2 :
  (length prices1 < 10)%nat →
  compute_ols_hedge_ratio prices1 prices2 = (0%float, 0%float).
Proof. intros Hlt. unfold compute_ols_hedge_ratio. rewrite decide_True; [done | by left]. Qed.

(** ** The rolling z-score *)

Lemma at_row_lookup (col : list float) (i : nat) :
  at_row col i = default fnan (col !! i).
Proof. unfold at_row. apply nth_lookup. Qed.

Lemma at_row_replace_zero (col : list float) (i : nat) :
  at_row (replace_zero col) i
  = if feqb (at_row col i) 0 then fnan else at_row col i.
Proof.
  rewrite !at_row_lookup. unfold replace_zero.
  change (map ?f col) with (f <$> col). rewrite list_lookup_fmap.
  destruct (col !! i) as [x |]; cbn; [done |]. reflexivity.
Qed.

(** [replace_inf] followed by [dropna] keeps exactly the finite rows. *)
Lemma dropna_replace_inf (rows : Series) :
  dropna (replace_inf rows) = List.filter finite_row rows.
Proof.
  unfold dropna, replace_inf, finite_row, notna.
  induction rows as [| [t v] rows IH]; [done |].
  cbn [map List.filter fst snd]. rewrite IH.
  destruct (is_infinity v) eqn:Einf.
  - change (is_nan fnan) with true. cbn [negb]. by rewrite andb_false_r.
  - cbn [negb]. by rewrite andb_true_r.
Qed.

Lemma zscore_rows_length series window :
  length (zscore_rows series window) = length series.
Proof. unfold zscore_rows. apply length_imap. Qed.

Lemma zscore_rows_lookup series window i r :
  series !! i = Some r →
  zscore_rows series window !! i
  = Some (r.1, PrimFloat.div
                 (PrimFloat.sub r.2 (at_row (rolling_mean window (values series)) i))
                 (at_row (replace_zero (rolling_std window (values series))) i)).
Proof. intros E. unfold zscore_rows. cbv zeta. by rewrite list_lookup_imap, E. Qed.

(** A row whose rolling deviation is zero has a missing quotient. *)
Lemma zero_deviation_row series window i :
  (i < length series)%nat →
  feqb (at_row (rolling_std window (values series)) i) 0 = true →
  ∃ r, zscore_rows series window !! i = Some r ∧ finite_row r = false.
Proof.
  intros Hi Hzero. destruct (lookup_lt_is_Some_2 series i Hi) as [r Hr].
  eexists. split; [by apply zscore_rows_lookup |].
  unfold finite_row. cbn [snd].
  rewrite at_row_replace_zero, Hzero. by rewrite div_nan_is_nan.
Qed.

(** So has a row whose rolling deviation is missing. *)
Lemma missing_deviation_row series window i :
  (i < length series)%nat →
  is_nan (at_row (rolling_std window (values series)) i) = true →
  ∃ r, zscore_rows series window !! i = Some r ∧ finite_row r = false.
Proof.
  intros Hi Hnan. destruct (lookup_lt_is_Some_2 series i Hi) as [r Hr].
  eexists. split; [by apply zscore_rows_lookup |].
  unfold finite_row. cbn [snd].
  rewrite at_row_replace_zero.
  destruct (feqb _ 0); [by rewrite div_nan_is_nan | by rewrite div_missing_is_nan].
Qed.

Lemma pair_zscore_compute prices1 prices2 window :
  pair_zscore prices1 prices2 window
  = compute_rolling_zscore (pair_spread prices1 prices2) window.
Proof.
  unfold pair_zscore, compute_rolling_zscore. cbv zeta.
  repeat case_decide; done || lia.
Qed.

(** C4 (amended). The z-score series is made of the rows of the quotient
    [(series - rolling_mean) / rolling_std] that are finite, in order; a row
    whose rolling deviation is exactly zero has a missing quotient and is not
    among them, so it is dropped and never emitted as zero, NaN or an
    infinity; every emitted value is finite. The z-score block of
    [analyze_pair] is this function of the spread. Of a segment of equal
    values, the rows that end a full window of equal finite values are
    dropped in the same way, whenever the rolling deviation of the library
    is zero (missing, for a window of one value) on such windows; the
    earlier rows of the segment, whose windows reach back before it, are
    not concerned. *)
Theorem zero_deviation_rows_dropped (series : Series) (window : Z) :
  let rows := zscore_rows series window in
  let zscore := compute_rolling_zscore series window in
  zscore = (if decide (Z.of_nat (length series) < window) then []
            else List.filter finite_row rows)
  ∧ length rows = length series
  ∧ (∀ i, (i < length series)%nat →
          feqb (at_row (rolling_std window (values series)) i) 0 = true →
          ∃ r, rows !! i = Some r ∧ finite_row r = false)
  ∧ Forall (λ p, is_nan p.2 = false ∧ is_infinity p.2 = false) zscore
  ∧ (∀ prices1 prices2,
       pair_zscore prices1 prices2 window
       = compute_rolling_zscore (pair_spread prices1 prices2) window)
  ∧ (deviation_on_constant_windows →
     ∀ i, constant_window (values series) window i = true →
          is_infinity (at_row (values series) i) = false →
          ∃ r, rows !! i = Some r ∧ finite_row r = false).
Proof.
  cbv zeta.
  assert (Ez : compute_rolling_zscore series window
               = if decide (Z.of_nat (length series) < window) then []
                 else List.filter finite_row (zscore_rows series window)).
  { unfold compute_rolling_zscore. case_decide; [done |]. apply dropna_replace_inf. }
  split_and!.
  - exact Ez.
  - apply zscore_rows_length.
  - intros i Hi Hzero. by apply zero_deviation_row.
  - rewrite Ez. case_decide; [by apply Forall_nil_2 |].
    apply Forall_forall. intros p Hp.
    apply list_elem_of_In, filter_In in Hp as [_ Hp].
    unfold finite_row in Hp. apply andb_prop in Hp as [H1 H2].
    split; by apply negb_true_iff.
  - intros prices1 prices2. apply pair_zscore_compute.
  - intros Hlib i Hconst Hfin.
    assert (Hi : (i < length series)%nat).
    { unfold constant_window in Hconst.
      apply andb_prop in Hconst as [Hconst _]. apply andb_prop in Hconst as [_ Hi].
      apply Z.ltb_lt in Hi. unfold values in Hi. rewrite length_map in Hi. lia. }
    pose proof (Hlib window (values series) i Hconst Hfin) as Hdev. cbv zeta in Hdev.
    case_decide.
    + by apply missing_deviation_row.
    + by apply zero_deviation_row.
Qed.

End Gate.

(** The reference rolling deviation is zero on windows of two or more equal
    finite values and missing on a window of one value. *)
Lemma ref_deviation_on_constant_windows : deviation_on_constant_windows.
Proof.
  intros window vals i Hconst Hfin. cbv zeta. cbn [rolling_std ref_numerics].
  assert (Hi : (i < length vals)%nat ∧ 0 < window).
  { unfold constant_window in Hconst.
    apply andb_prop in Hconst as [Hconst _]. apply andb_prop in Hconst as [Hconst Hi].
    apply andb_prop in Hconst as [Hw _].
    apply Z.ltb_lt in Hi, Hw. lia. }
  destruct Hi as [Hi Hw].
  rewrite at_row_lookup. unfold ref_rolling_std. rewrite list_lookup_imap.
  assert (Hlen : (i < length (rolling std window vals))%nat).
  { unfold rolling. by rewrite length_imap. }
  destruct (lookup_lt_is_Some_2 _ i Hlen) as [x Hx].
  rewrite Hx. cbn [fmap option_fmap option_map default].
  case_decide as Hone.
  - subst window. cbn [Z.leb Z.compare andb].
    unfold rolling in Hx. rewrite list_lookup_imap in Hx.
    destruct (vals !! i) as [v |]; [| done]. cbn in Hx. injection Hx as <-.
    destruct (Z.of_nat i + 1 <? 1); [done |].
    unfold std. rewrite decide_True; [done |].
    unfold trailing. rewrite length_take. cbn. lia.
  - rewrite (proj2 (Z.leb_le 2 window)) by lia.
    by rewrite Hconst, Hfin.
Qed.

(** ** The theorems at concrete inputs, on the reference routines *)

(** Ten aligned rows and a window of 5: the regression runs on a second
    series that moves, and the spread has ten rows. *)
Lemma analyze_pair_short_spread_witness :
  ∃ result,
    analyze_pair_outcome "btcusdt" "ethusdt" closes_ten_a closes_ten_b 5 = Returns result
    ∧ keys result = result_keys
    ∧ field "error" result = None
    ∧ field "adf_test" result
      = Some (PDict [("error", PStr "Insufficient data for ADF test")])
    ∧ (∀ k v, field k result = Some v → error_marker v = true → k = "adf_test").
Proof.
  apply (analyze_pair_short_spread "btcusdt" "ethusdt" closes_ten_a closes_ten_b 5).
  - lia.
  - vm_compute. discriminate.
  - right. vm_compute. reflexivity.
  - vm_compute. lia.
Defined.

(** C7 as stated fails: with ten aligned rows and a second series that does
    not move, the call passes the length gate and raises in the regression;
    so does, in the first rolling call, a call on five aligned rows with a
    window of -1. Both have fewer than 12 aligned rows, so a spread of fewer
    than 12 rows, and neither returns a result. *)
Lemma analyze_pair_raises_on_short_spread :
  (Z.max 5 5 ≤ Z.of_nat (length (aligned closes_ten_a closes_ten_flat))
   ∧ (length (pair_spread closes_ten_a closes_ten_flat) < 12)%nat
   ∧ analyze_pair_outcome "btcusdt" "ethusdt" closes_ten_a closes_ten_flat 5
     = Raises "ValueError")
  ∧ (Z.max 5 (-1) ≤ Z.of_nat (length (aligned closes_a closes_b))
     ∧ (length (pair_spread closes_a closes_b) < 12)%nat
     ∧ analyze_pair_outcome "btcusdt" "ethusdt" closes_a closes_b (-1)
       = Raises "ValueError").
Proof.
  split; (split; [vm_compute; discriminate |]); (split; [vm_compute; lia |]);
    vm_compute; reflexivity.
Qed.

(** Three aligned rows against a window of 20. *)
Lemma analyze_pair_insufficient_witness :
  analyze_pair "btcusdt" "ethusdt" closes_a closes_short 20
  = PDict [("error", PStr "Insufficient aligned data: 3 points, need at least 20")]
  ∧ keys (analyze_pair "btcusdt" "ethusdt" closes_a closes_short 20) = ["error"]
  ∧ Forall (λ k, field k (analyze_pair "btcusdt" "ethusdt" closes_a closes_short 20) = None)
      result_keys.
Proof.
  apply (analyze_pair_insufficient "btcusdt" "ethusdt" closes_a closes_short 20).
  vm_compute. reflexivity.
Defined.

(** Five aligned rows and a window of 5. *)
Lemma analyze_pair_default_hedge_witness :
  ∃ result,
    analyze_pair_outcome "btcusdt" "ethusdt" closes_a closes_b 5 = Returns result
    ∧ field "hedge_ratio" result = Some (PFloat 1)
    ∧ field "r_squared" result = Some (PFloat 0)
    ∧ field "error" result = None
    ∧ keys result = result_keys.
Proof.
  apply (analyze_pair_default_hedge "btcusdt" "ethusdt" closes_a closes_b 5).
  - lia.
  - vm_compute. discriminate.
  - vm_compute. lia.
Defined.

(** C3 as stated fails: with five aligned rows and a window of -1 the length
    gate asks for [max(5, -1) = 5] rows, the regression is skipped, and
    [spread.rolling(window=-1)] raises: there is no result. *)
Lemma analyze_pair_negative_window_raises :
  Z.max 5 (-1) ≤ Z.of_nat (length (aligned closes_a closes_b))
  ∧ (length (aligned closes_a closes_b) < 10)%nat
  ∧ analyze_pair_outcome "btcusdt" "ethusdt" closes_a closes_b (-1) = Raises "ValueError".
Proof.
  split; [vm_compute; discriminate |]. split; [vm_compute; lia |].
  vm_compute. reflexivity.
Qed.

(** On [flat_then_moving] with a window of 3 the rows that end a flat window
    (the third and the fourth) are dropped with the two rows whose window is
    not full; the z-score has the last two labels only. *)
Lemma zero_deviation_rows_dropped_witness :
  compute_rolling_zscore flat_then_moving 3
  = List.filter finite_row (zscore_rows flat_then_moving 3)
  ∧ map fst (compute_rolling_zscore flat_then_moving 3) = [240000; 300000]
  ∧ ∃ r, zscore_rows flat_then_moving 3 !! 3%nat = Some r ∧ finite_row r = false.
Proof.
  destruct (zero_deviation_rows_dropped flat_then_moving 3)
    as (Hz & _ & _ & _ & _ & Hconst).
  split; [exact Hz |]. split; [vm_compute; reflexivity |].
  apply (Hconst ref_deviation_on_constant_windows); vm_compute; reflexivity.
Defined.

(** C4 as stated fails: [flat_inside] stays at 0.1 on its rows 1, 2 and 3, a
    segment as long as the window of 3. Row 2 belongs to the segment and
    its window reaches back to the 5.0 of row 0: its deviation is not zero
    and the row is in the z-score series, of the static method and of
    [analyze_pair], whose payload emits it. *)
Lemma constant_segment_contributes_point :
  take 3 (drop 1 flat_inside) = [(1000, 0.1%float); (2000, 0.1%float); (3000, 0.1%float)]
  ∧ map fst (compute_rolling_zscore flat_inside 3) = [2000; 4000; 5000; 6000]
  ∧ pair_spread flat_inside zeros_seven = flat_inside
  ∧ map fst (pair_zscore flat_inside zeros_seven 3) = [2000; 4000; 5000; 6000]
  ∧ ∃ z rest,
      (field "series" (analyze_pair "btcusdt" "ethusdt" flat_inside zeros_seven 3)
         ≫= field "zscore")
      = Some (PList (PList [PStr "2000"; PFloat z] :: rest)).
Proof.
  split; [reflexivity |]. split; [vm_compute; reflexivity |].
  split; [vm_compute; reflexivity |]. split; [vm_compute; reflexivity |].
  eexists _, _. vm_compute. reflexivity.
Qed.

End AnalyticsProps.
(** * Properties of the OHLCV endpoint *)

Module ApiProps.
Import Storage.
Import Api.
Import Reference.
Import Predicates.

Section Endpoint.
Context {fmt : TimeFormat}.

Lemma bar_json_not_missing (row : Bar) :
  row_isna_any row = false → no_field_missing (bar_json row).
Proof.
  unfold row_isna_any, no_field_missing, bar_json. cbn.
  intros E. repeat (apply orb_false_elim in E as [E ?]). by split_and!.
Qed.

(** C10 (amended). The endpoint raises HTTP 400 exactly for a timeframe
    that is not configured; otherwise the list it returns is empty or has at
    least two items, and no open, high, low, close or volume in it is NaN
    (an infinite value is not filtered). *)
Theorem get_ohlcv_rows_not_missing (st : DataStorage) (sym timeframe : string) (limit : Z) :
  match get_ohlcv st sym timeframe limit with
  | HTTPException status_code detail =>
      (timeframe ∉ map fst TIMEFRAMES) ∧ status_code = 400
  | Data data =>
      (timeframe ∈ map fst TIMEFRAMES)
      ∧ (data = [] ∨ (2 ≤ length data)%nat)
      ∧ Forall no_field_missing data
  end.
Proof.
  unfold get_ohlcv.
  destruct (bool_decide (timeframe ∈ map fst TIMEFRAMES)) eqn:Etf; cbn [negb].
  - apply bool_decide_eq_true in Etf.
    destruct (bool_decide (Storage.get_ohlcv st sym timeframe limit = [])).
    { split_and!; [done | by left | by apply Forall_nil_2]. }
    cbv zeta. case_decide as Hlen.
    { split_and!; [done | by left | by apply Forall_nil_2]. }
    split_and!; [done | right; lia |].
    apply Forall_forall. intros b (row & -> & Hrow)%list_elem_of_fmap.
    apply list_elem_of_In, filter_In in Hrow as [_ Hrow].
    apply bar_json_not_missing. by apply negb_true_iff.
  - apply bool_decide_eq_false in Etf. done.
Qed.

End Endpoint.

(** [overflowed_storage] is what resampling [overflowing_ticks] leaves in
    the table, with the plain float sum as the group sum. *)
Example overflowed_storage_reached :
  resampled_data
    (run (map CallAddTick overflowing_ticks ++ [CallResample "btcusdt" "1m" 60]) new_storage)
  = resampled_data overflowed_storage.
Proof. vm_compute. reflexivity. Qed.

(** C10 as stated fails: for [overflowed_storage] the endpoint returns both
    bars, the first with an infinite volume. *)
Lemma get_ohlcv_returns_infinite_volume :
  ¬ (∀ (st : DataStorage) (sym timeframe : string) (limit : Z) (data : list BarJson),
       get_ohlcv st sym timeframe limit = Data data →
       Forall all_fields_finite data ∧ (data = [] ∨ (2 ≤ length data)%nat)).
Proof.
  intros Hclaim.
  destruct (Hclaim overflowed_storage "btcusdt" "1m" 1000
              (map bar_json overflowed_bars)) as [Hfinite _].
  { vm_compute. reflexivity. }
  apply Forall_inv in Hfinite.
  destruct Hfinite as (_ & _ & _ & _ & _ & Hvol).
  vm_compute in Hvol. discriminate.
Qed.

End ApiProps.
(** * Further properties of the tick buffer and the resampler *)

Module StorageExtra.
Import Storage.
Import StorageProps.
Import Reference.
Import Predicates.

(** [get_recent_ticks], by the sign of [limit]: the last [limit] ticks for a
    positive limit, the whole deque for [limit = 0] (the slice [ticks[-0:]]
    starts at the head), and the deque without its first [-limit] ticks for
    a negative one. A positive limit bounds the length of the answer. *)
Theorem get_recent_ticks_by_limit (st : DataStorage) (sym : string) (limit : Z) :
  let buf := buffer st sym in
  let ticks := (get_recent_ticks st sym limit).1 in
  ticks = (if decide (0 < limit) then drop (length buf - Z.to_nat limit) buf
           else if decide (limit = 0) then buf
           else drop (Z.to_nat (- limit)) buf)
  ∧ ticks `suffix_of` buf
  ∧ (0 < limit → (length ticks ≤ Z.to_nat limit)%nat).
Proof.
  cbv zeta.
  assert (E : (get_recent_ticks st sym limit).1
              = if decide (0 < limit)
                then drop (length (buffer st sym) - Z.to_nat limit) (buffer st sym)
                else if decide (limit = 0) then buffer st sym
                else drop (Z.to_nat (- limit)) (buffer st sym)).
  { destruct (decide (0 < limit)) as [Hpos | Hnpos]; [by apply get_recent_ticks_last |].
    unfold get_recent_ticks, buffer. rewrite <- getitem_fst.
    destruct (tick_buffer_getitem sym (tick_buffer st)) as [ticks tb]. cbn [fst].
    destruct (decide (limit = 0)) as [-> | Hneg].
    - case_decide; [| done]. unfold py_slice_from. by rewrite decide_True.
    - rewrite decide_True by lia. unfold py_slice_from. by rewrite decide_True by lia. }
  rewrite E. split; [done |]. split.
  - repeat case_decide; try done; apply suffix_drop.
  - intros Hpos. rewrite decide_True by done. rewrite length_drop. lia.
Qed.

(** Reading the ticks of a symbol changes no deque content and no table; it
    only registers the symbol as a key of the buffer. *)
Theorem get_recent_ticks_preserves (st : DataStorage) (sym : string) (limit : Z) :
  let st' := (get_recent_ticks st sym limit).2 in
  (∀ sym', buffer st' sym' = buffer st sym')
  ∧ resampled_data st' = resampled_data st
  ∧ get_all_symbols st' = get_all_symbols st ∪ {[sym]}.
Proof.
  cbv zeta. split_and!.
  - intros sym'. unfold buffer. rewrite tick_buffer_get_recent_ticks. apply buffer_getitem.
  - unfold get_recent_ticks.
    by destruct (tick_buffer_getitem sym (tick_buffer st)).
  - unfold get_all_symbols. rewrite tick_buffer_get_recent_ticks, getitem_dom. set_solver.
Qed.

Lemma deque_append_last (cap : nat) (d : list Tick) (x : Tick) :
  (0 < cap)%nat → last (deque_append cap d x) = Some x.
Proof.
  intros Hcap. unfold deque_append. cbv zeta. case_decide as Hlen.
  - destruct d as [| a d]; [cbn in Hlen; lia |]. cbn [app drop]. apply last_snoc.
  - apply last_snoc.
Qed.

(** [add_tick] on any storage state: the tick becomes the newest item of the
    deque of its symbol, the deque is the old one followed by the tick, less
    its oldest item when that would exceed 10,000 items; no other deque and
    no table changes. *)
Theorem add_tick_appends (st : DataStorage) (tick : Tick) :
  let st' := add_tick st tick in
  let old := buffer st (symbol tick) in
  let new := buffer st' (symbol tick) in
  last new = Some tick
  ∧ new = (if decide (10000 < length old + 1)%nat then drop 1 (old ++ [tick])
           else old ++ [tick])
  ∧ (∀ sym, sym ≠ symbol tick → buffer st' sym = buffer st sym)
  ∧ resampled_data st' = resampled_data st
  ∧ get_all_symbols st' = get_all_symbols st ∪ {[symbol tick]}.
Proof.
  cbv zeta.
  assert (E : buffer (add_tick st tick) (symbol tick)
              = deque_append maxlen (buffer st (symbol tick)) tick).
  { pose proof (buffer_step st (CallAddTick tick) (symbol tick)) as E.
    cbn [step] in E. by rewrite decide_True in E. }
  split_and!.
  - rewrite E. apply deque_append_last. unfold maxlen. lia.
  - rewrite E. unfold deque_append. cbv zeta. rewrite length_app. cbn [length].
    change maxlen with 10000%nat. done.
  - intros sym Hne. pose proof (buffer_step st (CallAddTick tick) sym) as E'.
    cbn [step] in E'. by rewrite decide_False in E'.
  - unfold add_tick. by destruct (tick_buffer_getitem (symbol tick) (tick_buffer st)).
  - pose proof (get_all_symbols_step st (CallAddTick tick)) as E'. by cbn [step] in E'.
Qed.

(** ** The bars of one resampling *)

#[local] Instance ts_le_total : Total ts_le.
Proof. intros a b. unfold ts_le. lia. Qed.

#[local] Instance ts_le_trans : Transitive ts_le.
Proof. intros a b c. unfold ts_le. lia. Qed.

(** *** The time order of the frame *)

Lemma insert_by_time_Permutation (x : Tick) (l : list Tick) :
  insert_by_time x l ≡ₚ x :: l.
Proof.
  induction l as [| y l IH]; cbn [insert_by_time]; [done |].
  case_decide; [done |]. rewrite IH. apply Permutation_swap.
Qed.

Lemma sort_by_time_Permutation (ticks : list Tick) : sort_by_time ticks ≡ₚ ticks.
Proof.
  induction ticks as [| x l IH]; cbn [sort_by_time foldr]; [done |].
  rewrite insert_by_time_Permutation. by apply Permutation_skip.
Qed.

Lemma insert_by_time_sorted (x : Tick) (l : list Tick) :
  StronglySorted ts_le l → StronglySorted ts_le (insert_by_time x l).
Proof.
  induction 1 as [| y l Hl IH Hy]; cbn [insert_by_time]; [repeat constructor |].
  case_decide as Hxy.
  - constructor; [by constructor |]. constructor; [done |].
    eapply Forall_impl; [exact Hy |]. intros z Hz. by transitivity y.
  - constructor; [done |]. rewrite insert_by_time_Permutation.
    constructor; [| done]. unfold ts_le in *. lia.
Qed.

Lemma sort_by_time_sorted (ticks : list Tick) : StronglySorted ts_le (sort_by_time ticks).
Proof.
  induction ticks as [| x l IH]; cbn [sort_by_time foldr]; [constructor |].
  by apply insert_by_time_sorted.
Qed.

(** Inserting a tick puts it before the ticks of its own timestamp. *)
Lemma insert_by_time_filter (t : Z) (x : Tick) (l : list Tick) :
  List.filter (λ y, timestamp y =? t) (insert_by_time x l)
  = List.filter (λ y, timestamp y =? t) (x :: l).
Proof.
  induction l as [| y l IH]; cbn [insert_by_time]; [done |].
  case_decide as Hxy; [done |].
  cbn [List.filter] in IH |- *. rewrite IH.
  destruct (timestamp x =? t) eqn:Ex; [| done].
  destruct (timestamp y =? t) eqn:Ey; [| done].
  apply Z.eqb_eq in Ex, Ey. unfold ts_le in Hxy. lia.
Qed.

(** The sort is stable: the ticks of one timestamp stay in arrival order. *)
Lemma sort_by_time_stable (t : Z) (ticks : list Tick) :
  List.filter (λ y, timestamp y =? t) (sort_by_time ticks)
  = List.filter (λ y, timestamp y =? t) ticks.
Proof.
  induction ticks as [| x l IH]; cbn [sort_by_time foldr]; [done |].
  rewrite insert_by_time_filter. cbn [List.filter].
  change (foldr insert_by_time [] l) with (sort_by_time l). by rewrite IH.
Qed.

Lemma list_filter_comm {A} (f g : A → bool) (l : list A) :
  List.filter f (List.filter g l) = List.filter g (List.filter f l).
Proof.
  induction l as [| a l IH]; [done |]. cbn [List.filter].
  destruct (f a) eqn:Ef, (g a) eqn:Eg; cbn [List.filter]; rewrite ?Ef, ?Eg, IH; done.
Qed.

Lemma bucket_start_mono (t0 seconds a b : Z) :
  0 < seconds → a ≤ b → bucket_start t0 seconds a ≤ bucket_start t0 seconds b.
Proof.
  intros Hs Hab. unfold bucket_start. cbv zeta.
  set (origin := t0 `div` ms_per_day * ms_per_day).
  assert (Hdiv : (a - origin) `div` (seconds * 1000) ≤ (b - origin) `div` (seconds * 1000))
    by (apply Z.div_le_mono; lia).
  nia.
Qed.

(** A timestamp lies in the bin that starts at its [bucket_start]. *)
Lemma bucket_start_bounds (t0 seconds t : Z) :
  0 < seconds →
  bucket_start t0 seconds t ≤ t < bucket_start t0 seconds t + seconds * 1000.
Proof.
  intros Hs. unfold bucket_start. cbv zeta.
  set (origin := t0 `div` ms_per_day * ms_per_day).
  pose proof (Z.mul_div_le (t - origin) (seconds * 1000)).
  pose proof (Z.mul_succ_div_gt (t - origin) (seconds * 1000)).
  lia.
Qed.

(** Two timestamps share a bin exactly when the second lies in the bin of
    the first. *)
Lemma bucket_start_same (t0 seconds a t : Z) :
  0 < seconds →
  bucket_start t0 seconds t = bucket_start t0 seconds a
  ↔ bucket_start t0 seconds a ≤ t < bucket_start t0 seconds a + seconds * 1000.
Proof.
  intros Hs. split.
  - intros <-. by apply bucket_start_bounds.
  - intros Hin. pose proof (bucket_start_bounds t0 seconds t Hs) as Ht.
    pose proof (bucket_start_bounds t0 seconds a Hs) as Ha.
    unfold bucket_start in *. cbv zeta in *.
    set (origin := t0 `div` ms_per_day * ms_per_day) in *.
    set (w := seconds * 1000) in *.
    assert (Hw : 0 < w) by (unfold w; lia).
    assert ((t - origin) `div` w = (a - origin) `div` w); [| congruence].
    set (qt := (t - origin) `div` w) in *. set (qa := (a - origin) `div` w) in *.
    nia.
Qed.

Lemma remove_dups_sorted (l : list Z) :
  StronglySorted Z.le l → StronglySorted Z.lt (remove_dups l).
Proof.
  induction 1 as [| x l Hl IH Hx]; cbn [remove_dups]; [constructor |].
  case_decide as Hin; [done |].
  constructor; [done |].
  apply Forall_forall. intros y Hy. apply (proj1 (elem_of_remove_dups l y)) in Hy.
  rewrite Forall_forall in Hx. specialize (Hx y Hy).
  assert (x ≠ y) by (intros ->; done). lia.
Qed.

Lemma StronglySorted_list_filter {A} (R : relation A) (f : A → bool) (l : list A) :
  StronglySorted R l → StronglySorted R (List.filter f l).
Proof.
  induction 1 as [| x l Hl IH Hx]; cbn [List.filter]; [constructor |].
  destruct (f x); [| done]. constructor; [done |].
  apply Forall_forall. intros y Hy%list_elem_of_In%filter_In.
  rewrite Forall_forall in Hx. apply Hx, list_elem_of_In, Hy.
Qed.

Lemma labels_of_filtered_rows {A B} (h : B → A) (g : A → B) (f : B → bool) (l : list A) :
  (∀ a, h (g a) = a) →
  map h (List.filter f (map g l)) = List.filter (λ a, f (g a)) l.
Proof.
  intros Hhg. induction l as [| a l IH]; [done |].
  cbn [map List.filter]. destruct (f (g a)); cbn [map]; by rewrite ?Hhg, IH.
Qed.

(** The running choice of [group_max] and [group_min] ends on one of the
    values it was given. *)
Lemma fold_choice (choose : float → float → bool) (r : list float) (x : float) :
  fold_left (λ acc y, if choose acc y then y else acc) r x ∈ x :: r.
Proof.
  revert x. induction r as [| y r IH]; intros x; cbn [fold_left]; [left |].
  destruct (choose x y).
  - right. apply IH.
  - specialize (IH x). apply elem_of_cons in IH as [-> | IH]; [left | right; by right].
Qed.

Lemma last_elem_of {A} (l : list A) (d : A) : l ≠ [] → List.last l d ∈ l.
Proof.
  induction l as [| a [| b l] IH]; [done | left |].
  intros _. right. by apply IH.
Qed.

(** With a close that is not missing, the four prices of a group are
    non-missing prices of the group. *)
Lemma group_prices (prices : list float) :
  is_nan (group_last prices) = false →
  Forall (λ x, x ∈ prices ∧ is_nan x = false)
    [group_first prices; group_max prices; group_min prices; group_last prices].
Proof.
  unfold group_first, group_max, group_min, group_last. intros Hclose.
  assert (Hsub : ∀ x, x ∈ List.filter notna prices → x ∈ prices ∧ is_nan x = false).
  { intros x [Hx Hn]%list_elem_of_In%filter_In. split; [by apply list_elem_of_In |].
    by apply negb_true_iff. }
  destruct (List.filter notna prices) as [| x r] eqn:E; [done |].
  repeat (apply Forall_cons; split); try apply Forall_nil_2; apply Hsub.
  - left.
  - apply fold_choice.
  - apply fold_choice.
  - apply last_elem_of. done.
Qed.

Section Bars.
Context {agg : GroupAgg}.

(** What [resample] returns, bar by bar. *)
Lemma resample_bars (seconds : Z) (ticks : list Tick) (bar : Bar) :
  0 < seconds →
  bar ∈ resample seconds ticks →
  bar = agg_bucket (ts bar) (ticks_in_bin seconds (ts bar) ticks)
  ∧ is_nan (close bar) = false
  ∧ ∃ tick, tick ∈ ticks ∧ ts bar ≤ timestamp tick < ts bar + seconds * 1000.
Proof.
  intros Hs. unfold resample. cbv zeta.
  destruct (sort_by_time ticks) as [| t0 sorted'] eqn:Esorted; [by intros ?%elem_of_nil |].
  set (sorted := t0 :: sorted') in *.
  set (key := λ t : Tick, bucket_start (timestamp t0) seconds (timestamp t)).
  intros [Hbar Hclose]%list_elem_of_In%filter_In.
  apply list_elem_of_In, list_elem_of_fmap in Hbar as (b & -> & Hb).
  apply (proj1 (elem_of_remove_dups _ _)), list_elem_of_fmap in Hb as (tick & -> & Htick).
  cbn [ts agg_bucket].
  assert (Hgroup : List.filter (λ t : Tick, key t =? key tick) sorted
                   = ticks_in_bin seconds (key tick) ticks).
  { unfold ticks_in_bin. rewrite Esorted. apply filter_ext. intros t.
    apply eq_true_iff_eq. rewrite Z.eqb_eq, andb_true_iff, Z.leb_le, Z.ltb_lt.
    unfold key. by apply bucket_start_same. }
  change (List.filter (λ t : Tick, key t =? key tick) sorted)
    with (List.filter (λ t : Tick, bucket_start (timestamp t0) seconds (timestamp t)
                                   =? key tick) sorted) in Hgroup.
  rewrite Hgroup in Hclose |- *. split_and!.
  - done.
  - by apply negb_true_iff in Hclose.
  - exists tick. split; [| by apply bucket_start_bounds].
    rewrite <- (sort_by_time_Permutation ticks), Esorted. done.
Qed.

(** The bars of one resampling carry strictly increasing timestamps, so no
    timestamp occurs twice. *)
Theorem resample_timestamps_increasing (seconds : Z) (ticks : list Tick) :
  0 < seconds → StronglySorted Z.lt (map ts (resample seconds ticks)).
Proof.
  intros Hs. unfold resample. cbv zeta.
  pose proof (sort_by_time_sorted ticks) as Hsorted.
  destruct (sort_by_time ticks) as [| t0 sorted'] eqn:Esorted; [constructor |].
  set (sorted := t0 :: sorted') in *.
  set (key := λ t : Tick, bucket_start (timestamp t0) seconds (timestamp t)).
  rewrite (labels_of_filtered_rows ts) by done.
  apply StronglySorted_list_filter, remove_dups_sorted.
  apply (StronglySorted_fmap key ts_le Z.le); [| done].
  intros a b Hab. by apply bucket_start_mono.
Qed.

(** The ticks of a bin: they are in time order, and those of one timestamp
    are the ticks of that timestamp in arrival order. *)
Lemma ticks_in_bin_order (seconds start : Z) (ticks : list Tick) :
  StronglySorted ts_le (ticks_in_bin seconds start ticks)
  ∧ ∀ t, List.filter (λ y, timestamp y =? t) (ticks_in_bin seconds start ticks)
         = List.filter (λ y, (start <=? timestamp y) && (timestamp y <? start + seconds * 1000))
             (List.filter (λ y, timestamp y =? t) ticks).
Proof.
  unfold ticks_in_bin. split.
  - apply StronglySorted_list_filter, sort_by_time_sorted.
  - intros t. by rewrite list_filter_comm, sort_by_time_stable.
Qed.

(** Every bar is the aggregate of the ticks whose timestamp falls in its
    bin [[ts, ts + seconds)]: the bin holds at least one tick (no bar is made
    for an empty bin), the volume is the group sum of their quantities, and
    open, high, low and close are non-missing prices of those ticks, the
    open being the first and the close the last non-missing one in time
    order, where the ticks of one timestamp are taken in arrival order. *)
Theorem resample_bar_aggregates_its_bin (seconds : Z) (ticks : list Tick) (bar : Bar) :
  0 < seconds →
  bar ∈ resample seconds ticks →
  let group := ticks_in_bin seconds (ts bar) ticks in
  (∃ tick, tick ∈ ticks ∧ ts bar ≤ timestamp tick < ts bar + seconds * 1000)
  ∧ StronglySorted ts_le group
  ∧ (∀ t, List.filter (λ y, timestamp y =? t) group
          = List.filter (λ y, (ts bar <=? timestamp y)
                              && (timestamp y <? ts bar + seconds * 1000))
              (List.filter (λ y, timestamp y =? t) ticks))
  ∧ open bar = group_first (map price group)
  ∧ close bar = group_last (map price group)
  ∧ volume bar = group_sum (map quantity group)
  ∧ Forall (λ x, is_nan x = false ∧ ∃ tick, tick ∈ group ∧ price tick = x)
      [open bar; high bar; low bar; close bar].
Proof.
  intros Hs Hbar. cbv zeta.
  destruct (resample_bars seconds ticks bar Hs Hbar) as (Ebar & Hclose & Htick).
  destruct (ticks_in_bin_order seconds (ts bar) ticks) as [Hsorted Hstable].
  set (group := ticks_in_bin seconds (ts bar) ticks) in *.
  assert (Eo : open bar = group_first (map price group)) by (by rewrite Ebar).
  assert (Eh : high bar = group_max (map price group)) by (by rewrite Ebar).
  assert (El : low bar = group_min (map price group)) by (by rewrite Ebar).
  assert (Ec : close bar = group_last (map price group)) by (by rewrite Ebar).
  assert (Ev : volume bar = group_sum (map quantity group)) by (by rewrite Ebar).
  split_and!; [done | done | done | done | done | done |].
  rewrite Ec in Hclose. rewrite Eo, Eh, El, Ec.
  eapply Forall_impl; [by apply group_prices |].
  intros x [Hx Hn]. split; [done |].
  apply list_elem_of_fmap in Hx as (tick & -> & Hin). by exists tick.
Qed.

(** ** One call of [resample_to_ohlcv] *)

Lemma resample_to_ohlcv_unfold st sym tf seconds :
  resample_to_ohlcv st sym tf seconds =
  let ticks := (get_recent_ticks st sym 1000).1 in
  let st1 := (get_recent_ticks st sym 1000).2 in
  if decide (length ticks < 2)%nat then (ResampleNone, st1)
  else if decide (seconds ≤ 0) then (ResampleRaised, st1)
  else if decide (max_bin_seconds < seconds) then (ResampleRaised, st1)
  else if resample_rejects seconds (map timestamp ticks) then (ResampleRaised, st1)
  else (ResampleFrame (resample seconds ticks),
        {| tick_buffer := tick_buffer st1;
           resampled_data :=
             resampled_data_set sym tf (resample seconds ticks) (resampled_data st1) |}).
Proof. unfold resample_to_ohlcv. by destruct (get_recent_ticks st sym 1000). Qed.

Lemma recent_1000_length st sym :
  length (get_recent_ticks st sym 1000).1 = (length (buffer st sym) `min` 1000)%nat.
Proof. rewrite get_recent_ticks_last by lia. rewrite length_drop. lia. Qed.

Lemma resampled_data_get_recent_ticks st sym limit :
  resampled_data (get_recent_ticks st sym limit).2 = resampled_data st.
Proof. unfold get_recent_ticks. by destruct (tick_buffer_getitem sym (tick_buffer st)). Qed.

(** The table read by [get_ohlcv], empty when a key is missing. *)
Lemma get_ohlcv_table st sym tf limit :
  Storage.get_ohlcv st sym tf limit
  = tail limit (default [] (resampled_data st !! sym ≫= (.!! tf))).
Proof.
  unfold Storage.get_ohlcv. destruct (resampled_data st !! sym) as [tables |]; cbn.
  - destruct (tables !! tf); cbn; [done |].
    unfold tail, py_slice_from. repeat case_decide; by rewrite ?drop_nil.
  - unfold tail, py_slice_from. repeat case_decide; by rewrite ?drop_nil.
Qed.

Lemma resampled_data_set_lookup sym tf ohlcv rd sym' tf' :
  resampled_data_set sym tf ohlcv rd !! sym' ≫= (.!! tf')
  = if decide (sym' = sym ∧ tf' = tf) then Some ohlcv else rd !! sym' ≫= (.!! tf').
Proof.
  unfold resampled_data_set.
  destruct (decide (sym' = sym)) as [-> | Hsym].
  - rewrite lookup_insert_eq. cbn.
    destruct (decide (tf' = tf)) as [-> | Htf].
    + rewrite lookup_insert_eq. by rewrite decide_True.
    + rewrite lookup_insert_ne by done. rewrite decide_False by tauto.
      by destruct (rd !! sym).
  - rewrite lookup_insert_ne by done. by rewrite decide_False by tauto.
Qed.

(** The last 1000 ticks of the deque of a symbol: what [resample_to_ohlcv]
    reads. *)
Lemma recent_1000 st sym :
  (get_recent_ticks st sym 1000).1
  = drop (length (buffer st sym) - 1000) (buffer st sym).
Proof. by rewrite get_recent_ticks_last by lia. Qed.

(** The three ways of a call. *)
Lemma resample_to_ohlcv_cases st sym tf seconds :
  resample_to_ohlcv st sym tf seconds =
  let st1 := (get_recent_ticks st sym 1000).2 in
  let bars := resample seconds (drop (length (buffer st sym) - 1000) (buffer st sym)) in
  if decide (length (buffer st sym) < 2)%nat then (ResampleNone, st1)
  else if decide (accepted st sym seconds)
  then (ResampleFrame bars,
        {| tick_buffer := tick_buffer st1;
           resampled_data := resampled_data_set sym tf bars (resampled_data st1) |})
  else (ResampleRaised, st1).
Proof.
  rewrite resample_to_ohlcv_unfold. cbv zeta. rewrite recent_1000_length, recent_1000.
  destruct (decide (length (buffer st sym) < 2)%nat) as [Hfew | Hmany].
  { by rewrite decide_True by lia. }
  rewrite decide_False by lia.
  destruct (decide (accepted st sym seconds)) as [(_ & Hs & Hacc) | Hno].
  - rewrite !decide_False by lia. by rewrite Hacc.
  - case_decide; [done |]. case_decide; [done |].
    destruct (resample_rejects seconds _) eqn:Hrej; [done |].
    destruct Hno. split_and!; [lia | lia | lia | done].
Qed.

(** What one call does to the table of each symbol and timeframe. *)
Lemma resample_to_ohlcv_lookup st sym tf seconds sym' tf' :
  resampled_data (resample_to_ohlcv st sym tf seconds).2 !! sym' ≫= (.!! tf')
  = if decide (accepted st sym seconds ∧ sym' = sym ∧ tf' = tf)
    then Some (resample seconds (drop (length (buffer st sym) - 1000) (buffer st sym)))
    else resampled_data st !! sym' ≫= (.!! tf').
Proof.
  rewrite resample_to_ohlcv_cases. cbv zeta.
  destruct (decide (length (buffer st sym) < 2)%nat) as [Hfew | Hmany].
  { cbn [snd]. rewrite resampled_data_get_recent_ticks.
    rewrite decide_False; [done |]. intros [(? & _) _]. lia. }
  destruct (decide (accepted st sym seconds)) as [Hacc | Hno].
  - cbn [snd resampled_data].
    rewrite resampled_data_set_lookup, resampled_data_get_recent_ticks.
    destruct (decide (sym' = sym ∧ tf' = tf)) as [[-> ->] | Hne].
    + by rewrite decide_True.
    + rewrite decide_False; [done | tauto].
  - cbn [snd]. rewrite resampled_data_get_recent_ticks.
    rewrite decide_False; [done | tauto].
Qed.

(** What one call hands back. *)
Lemma resample_to_ohlcv_result st sym tf seconds :
  (resample_to_ohlcv st sym tf seconds).1
  = if decide (length (buffer st sym) < 2)%nat then ResampleNone
    else if decide (accepted st sym seconds)
    then ResampleFrame
           (resample seconds (drop (length (buffer st sym) - 1000) (buffer st sym)))
    else ResampleRaised.
Proof. rewrite resample_to_ohlcv_cases. cbv zeta. by repeat case_decide. Qed.

Lemma resample_to_ohlcv_buffer st sym tf seconds sym' :
  buffer (resample_to_ohlcv st sym tf seconds).2 sym' = buffer st sym'.
Proof. unfold buffer. rewrite tick_buffer_resample. apply buffer_getitem. Qed.

Lemma resample_to_ohlcv_symbols st sym tf seconds :
  get_all_symbols (resample_to_ohlcv st sym tf seconds).2 = get_all_symbols st ∪ {[sym]}.
Proof. unfold get_all_symbols. rewrite tick_buffer_resample, getitem_dom. set_solver. Qed.

(** With fewer than two buffered ticks for the symbol the call returns
    [None] and every table is as it was. *)
Theorem resample_to_ohlcv_too_few (st : DataStorage) (sym tf : string) (seconds : Z) :
  (length (buffer st sym) < 2)%nat →
  let out := resample_to_ohlcv st sym tf seconds in
  out.1 = ResampleNone
  ∧ resampled_data out.2 = resampled_data st
  ∧ ∀ sym' tf' limit,
      Storage.get_ohlcv out.2 sym' tf' limit = Storage.get_ohlcv st sym' tf' limit.
Proof.
  intros Hfew. cbv zeta. rewrite resample_to_ohlcv_unfold. cbv zeta.
  rewrite decide_True by (rewrite recent_1000_length; lia). cbn [fst snd].
  split; [done |]. split; [apply resampled_data_get_recent_ticks |].
  intros sym' tf' limit. unfold Storage.get_ohlcv.
  by rewrite resampled_data_get_recent_ticks.
Qed.

(** With at least two buffered ticks and a positive bin width that the
    clock holds and the resampler accepts for the last 1000 buffered ticks,
    the call returns
    their bars and stores them as the table of (symbol, timeframe),
    replacing what was there: [get_ohlcv] then answers from these bars. The
    table of every other symbol or timeframe and every deque are as
    before. *)
Theorem resample_to_ohlcv_stores (st : DataStorage) (sym tf : string) (seconds : Z) :
  (2 ≤ length (buffer st sym))%nat →
  0 < seconds ≤ max_bin_seconds →
  resample_rejects seconds
    (map timestamp (drop (length (buffer st sym) - 1000) (buffer st sym))) = false →
  let out := resample_to_ohlcv st sym tf seconds in
  let bars := resample seconds (drop (length (buffer st sym) - 1000) (buffer st sym)) in
  out.1 = ResampleFrame bars
  ∧ (∀ limit, Storage.get_ohlcv out.2 sym tf limit = tail limit bars)
  ∧ (∀ sym' tf' limit, ¬ (sym' = sym ∧ tf' = tf) →
       Storage.get_ohlcv out.2 sym' tf' limit = Storage.get_ohlcv st sym' tf' limit)
  ∧ (∀ sym', buffer out.2 sym' = buffer st sym').
Proof.
  intros Hticks Hs Hacc. cbv zeta.
  assert (Ha : accepted st sym seconds) by done.
  split_and!.
  - rewrite resample_to_ohlcv_result. rewrite decide_False by lia. by rewrite decide_True.
  - intros limit. rewrite get_ohlcv_table, resample_to_ohlcv_lookup.
    by rewrite decide_True.
  - intros sym' tf' limit Hne. rewrite !get_ohlcv_table, resample_to_ohlcv_lookup.
    rewrite decide_False; [done | tauto].
  - intros sym'. apply resample_to_ohlcv_buffer.
Qed.

(** With at least two buffered ticks, a bin width that is not positive,
    that exceeds 9223372036 seconds (what the 64-bit nanosecond clock
    holds), or that the resampler rejects for the last 1000 buffered ticks
    makes the call raise: no table is written and no deque changes. *)
Theorem resample_to_ohlcv_raises (st : DataStorage) (sym tf : string) (seconds : Z) :
  (2 ≤ length (buffer st sym))%nat →
  seconds ≤ 0 ∨ max_bin_seconds < seconds
  ∨ resample_rejects seconds
      (map timestamp (drop (length (buffer st sym) - 1000) (buffer st sym))) = true →
  let out := resample_to_ohlcv st sym tf seconds in
  out.1 = ResampleRaised
  ∧ resampled_data out.2 = resampled_data st
  ∧ (∀ sym' tf' limit,
       Storage.get_ohlcv out.2 sym' tf' limit = Storage.get_ohlcv st sym' tf' limit)
  ∧ (∀ sym', buffer out.2 sym' = buffer st sym').
Proof.
  intros Hticks Hbad. cbv zeta.
  assert (Ha : ¬ accepted st sym seconds).
  { intros (_ & Hs & Hacc). destruct Hbad as [Hbad | [Hbad | Hbad]]; [lia | lia | congruence]. }
  assert (Hrd : resampled_data (resample_to_ohlcv st sym tf seconds).2 = resampled_data st).
  { rewrite resample_to_ohlcv_cases. cbv zeta. rewrite decide_False by lia.
    rewrite decide_False by done. cbn [snd]. apply resampled_data_get_recent_ticks. }
  split_and!.
  - rewrite resample_to_ohlcv_result. rewrite decide_False by lia. by rewrite decide_False.
  - exact Hrd.
  - intros sym' tf' limit. unfold Storage.get_ohlcv. by rewrite Hrd.
  - intros sym'. apply resample_to_ohlcv_buffer.
Qed.

(** [get_ohlcv] on the storage object: the answer is the end of the stored
    table, at most [limit] rows of it for a limit that is not negative, and
    it is empty when the symbol or the timeframe has no table. *)
Theorem get_ohlcv_is_table_end (st : DataStorage) (sym tf : string) (limit : Z) :
  let table := default [] (resampled_data st !! sym ≫= (.!! tf)) in
  let rows := Storage.get_ohlcv st sym tf limit in
  rows `suffix_of` table
  ∧ rows = (if decide (0 < limit) then drop (length table - Z.to_nat limit) table
            else if decide (limit = 0) then []
            else drop (Z.to_nat (- limit)) table)
  ∧ (0 ≤ limit → (length rows ≤ Z.to_nat limit)%nat).
Proof.
  cbv zeta. rewrite get_ohlcv_table.
  set (table := default [] (resampled_data st !! sym ≫= (.!! tf))).
  assert (E : tail limit table
              = if decide (0 < limit) then drop (length table - Z.to_nat limit) table
                else if decide (limit = 0) then []
                else drop (Z.to_nat (- limit)) table).
  { unfold tail. destruct (decide (limit = 0)) as [-> | Hne]; [done |].
    destruct (decide (0 < limit)) as [Hpos | Hneg].
    - by apply py_slice_from_last.
    - unfold py_slice_from. by rewrite decide_True by lia. }
  rewrite E. split_and!.
  - repeat case_decide; try apply suffix_drop. apply suffix_nil.
  - done.
  - intros Hlimit. repeat case_decide; rewrite ?length_drop; cbn; lia.
Qed.

End Bars.

Lemma resample_to_ohlcv_too_few_witness :
  let st := add_tick new_storage (mkTick "btcusdt" 1000 100 1) in
  let out := resample_to_ohlcv st "btcusdt" "1m" 60 in
  out.1 = ResampleNone
  ∧ resampled_data out.2 = resampled_data st
  ∧ ∀ sym' tf' limit,
      Storage.get_ohlcv out.2 sym' tf' limit = Storage.get_ohlcv st sym' tf' limit.
Proof.
  apply (resample_to_ohlcv_too_few
           (add_tick new_storage (mkTick "btcusdt" 1000 100 1)) "btcusdt" "1m" 60).
  vm_compute. lia.
Defined.

Lemma resample_to_ohlcv_stores_witness :
  let st := run (map CallAddTick overflowing_ticks) new_storage in
  let out := resample_to_ohlcv st "btcusdt" "1m" 60 in
  let bars := resample 60 (drop (length (buffer st "btcusdt") - 1000) (buffer st "btcusdt")) in
  out.1 = ResampleFrame bars
  ∧ (∀ limit, Storage.get_ohlcv out.2 "btcusdt" "1m" limit = tail limit bars)
  ∧ (∀ sym' tf' limit, ¬ (sym' = "btcusdt" ∧ tf' = "1m") →
       Storage.get_ohlcv out.2 sym' tf' limit = Storage.get_ohlcv st sym' tf' limit)
  ∧ (∀ sym', buffer out.2 sym' = buffer st sym').
Proof.
  apply (resample_to_ohlcv_stores
           (run (map CallAddTick overflowing_ticks) new_storage) "btcusdt" "1m" 60).
  - vm_compute. lia.
  - unfold max_bin_seconds. lia.
  - vm_compute. reflexivity.
Defined.

(** A bin of 10^13 seconds, beyond what a 64-bit nanosecond clock holds. *)
Lemma resample_to_ohlcv_raises_witness :
  let st := run (map CallAddTick overflowing_ticks) new_storage in
  let out := resample_to_ohlcv st "btcusdt" "1m" 10000000000000 in
  out.1 = ResampleRaised
  ∧ resampled_data out.2 = resampled_data st
  ∧ (∀ sym' tf' limit,
       Storage.get_ohlcv out.2 sym' tf' limit = Storage.get_ohlcv st sym' tf' limit)
  ∧ (∀ sym', buffer out.2 sym' = buffer st sym').
Proof.
  apply (resample_to_ohlcv_raises
           (run (map CallAddTick overflowing_ticks) new_storage) "btcusdt" "1m"
           10000000000000).
  - vm_compute. lia.
  - right. left. unfold max_bin_seconds. lia.
Defined.

Lemma resample_timestamps_increasing_witness :
  StronglySorted Z.lt (map ts (resample 60 overflowing_ticks)).
Proof. apply (resample_timestamps_increasing 60 overflowing_ticks). lia. Defined.

Lemma resample_bar_aggregates_its_bin_witness :
  let bar := mkBar 2000 103 103 101 102 3.5 in
  let group := ticks_in_bin 1 2000 same_time_ticks in
  (∃ tick, tick ∈ same_time_ticks ∧ 2000 ≤ timestamp tick < 2000 + 1 * 1000)
  ∧ StronglySorted ts_le group
  ∧ (∀ t, List.filter (λ y, timestamp y =? t) group
          = List.filter (λ y, (2000 <=? timestamp y) && (timestamp y <? 2000 + 1 * 1000))
              (List.filter (λ y, timestamp y =? t) same_time_ticks))
  ∧ open bar = group_first (map price group)
  ∧ close bar = group_last (map price group)
  ∧ volume bar = group_sum (map quantity group)
  ∧ Forall (λ x, is_nan x = false ∧ ∃ tick, tick ∈ group ∧ price tick = x)
      [open bar; high bar; low bar; close bar].
Proof.
  apply (resample_bar_aggregates_its_bin 1 same_time_ticks (mkBar 2000 103 103 101 102 3.5)).
  - lia.
  - vm_compute. right. left.
Defined.

End StorageExtra.
(** * Further properties of the pair analytics *)

Module AnalyticsExtra.
Import Analytics.
Import Reference.
Import Predicates.
Import AnalyticsProps.

(** ** The aligned frame *)

Lemma StronglySorted_le_NoDup (l : list Z) :
  StronglySorted Z.le l → NoDup l → StronglySorted Z.lt l.
Proof.
  induction 1 as [| x l Hl IH Hx]; [constructor |].
  intros [Hnotin Hnd]%NoDup_cons. constructor; [by apply IH |].
  apply Forall_forall. intros y Hy. rewrite Forall_forall in Hx.
  specialize (Hx y Hy). assert (x ≠ y) by (intros ->; done). lia.
Qed.

Lemma StronglySorted_filter_bool {A} (R : relation A) (f : A → bool) (l : list A) :
  StronglySorted R l → StronglySorted R (List.filter f l).
Proof.
  induction 1 as [| x l Hl IH Hx]; cbn [List.filter]; [constructor |].
  destruct (f x); [| done]. constructor; [done |].
  apply Forall_forall. intros y Hy%list_elem_of_In%filter_In.
  rewrite Forall_forall in Hx. apply Hx, list_elem_of_In, Hy.
Qed.

Lemma aligned_rows (prices1 prices2 : Series) :
  Forall (λ r, r.2.1 = series_at prices1 r.1 ∧ r.2.2 = series_at prices2 r.1
               ∧ is_nan r.2.1 = false ∧ is_nan r.2.2 = false)
    (aligned prices1 prices2).
Proof.
  unfold aligned, dropna_frame, frame2. apply Forall_forall.
  intros r [Hr Hn]%list_elem_of_In%filter_In.
  apply list_elem_of_In, list_elem_of_fmap in Hr as (t & -> & _).
  cbn [fst snd] in *. unfold notna in Hn.
  apply andb_prop in Hn as [H1%negb_true_iff H2%negb_true_iff]. done.
Qed.

(** Alignment: the two aligned columns have the same labels and the same
    length, hold no missing value, and carry at each label the values the
    two inputs have there; a timestamp is a label of the aligned frame
    exactly when both inputs have a value at it. *)
Theorem aligned_columns_agree (prices1 prices2 : Series) :
  let df := aligned prices1 prices2 in
  index (column1 df) = index (column2 df)
  ∧ length (column1 df) = length (column2 df)
  ∧ Forall (λ r, r.2 = series_at prices1 r.1 ∧ is_nan r.2 = false) (column1 df)
  ∧ Forall (λ r, r.2 = series_at prices2 r.1 ∧ is_nan r.2 = false) (column2 df)
  ∧ ∀ t, t ∈ index (column1 df)
         ↔ is_nan (series_at prices1 t) = false ∧ is_nan (series_at prices2 t) = false.
Proof.
  cbv zeta. pose proof (aligned_rows prices1 prices2) as Hrows.
  assert (E1 : index (column1 (aligned prices1 prices2)) = map fst (aligned prices1 prices2)).
  { unfold index, column1. rewrite map_map. by apply map_ext. }
  assert (E2 : index (column2 (aligned prices1 prices2)) = map fst (aligned prices1 prices2)).
  { unfold index, column2. rewrite map_map. by apply map_ext. }
  split_and!.
  - by rewrite E1, E2.
  - unfold column1, column2. by rewrite !length_map.
  - unfold column1. apply Forall_fmap. eapply Forall_impl; [exact Hrows |].
    cbn. intros r (? & ? & ? & ?). done.
  - unfold column2. apply Forall_fmap. eapply Forall_impl; [exact Hrows |].
    cbn. intros r (? & ? & ? & ?). done.
  - intros t. rewrite E1. apply aligned_labels.
Qed.

(** The labels of the aligned frame increase strictly when those of the
    inputs do. *)
Theorem aligned_labels_increasing (prices1 prices2 : Series) :
  StronglySorted Z.lt (index prices1) →
  StronglySorted Z.lt (index prices2) →
  StronglySorted Z.lt (map fst (aligned prices1 prices2)).
Proof.
  intros Hs1 _. unfold aligned, dropna_frame, frame2.
  rewrite (frame_labels_filter (λ r, notna r.2.1 && notna r.2.2)
             (λ t, (series_at prices1 t, series_at prices2 t))).
  apply StronglySorted_filter_bool. unfold union_index. case_decide; [done |].
  apply StronglySorted_le_NoDup.
  - apply StronglySorted_merge_sort; apply _.
  - rewrite merge_sort_Permutation. apply NoDup_remove_dups.
Qed.

Lemma aligned_labels_increasing_witness :
  StronglySorted Z.lt (map fst (aligned closes_a closes_short)).
Proof.
  apply (aligned_labels_increasing closes_a closes_short).
  - vm_compute. repeat constructor.
  - vm_compute. repeat constructor.
Defined.

(** ** The derived series *)

Lemma dropna_sublist (s : Series) : dropna s `sublist_of` s.
Proof.
  unfold dropna. induction s as [| r s IH]; [done |]. cbn [List.filter].
  destruct (notna r.2); [by apply sublist_skip | by apply sublist_cons].
Qed.

Lemma list_filter_sublist {A} (f : A → bool) (l : list A) : List.filter f l `sublist_of` l.
Proof.
  induction l as [| a l IH]; [done |]. cbn [List.filter].
  destruct (f a); [by apply sublist_skip | by apply sublist_cons].
Qed.

Lemma index_filter_sublist (f : Z * float → bool) (s : Series) :
  index (List.filter f s) `sublist_of` index s.
Proof. unfold index. apply (fmap_sublist fst), list_filter_sublist. Qed.

Lemma index_on_index (idx : list Z) (col : list float) : index (on_index idx col) = idx.
Proof.
  unfold index, on_index. change (map fst ?l) with (fst <$> l).
  rewrite fmap_imap, (imap_ext _ (const id)) by done.
  by rewrite imap_const, list_fmap_id.
Qed.

Section Series.
Context {num : Numerics} {fmt : TimeFormat}.

Lemma index_zscore_rows (s : Series) (window : Z) : index (zscore_rows s window) = index s.
Proof.
  unfold index, zscore_rows. cbv zeta. change (map fst ?l) with (fst <$> l).
  rewrite fmap_imap, (imap_ext _ (const fst)) by done.
  by rewrite imap_const.
Qed.

Lemma compute_spread_rows (prices1 prices2 : Series) (hedge_ratio : float) :
  let spread := compute_spread prices1 prices2 hedge_ratio in
  Forall (λ r, is_nan r.2 = false ∧ is_infinity r.2 = false
               ∧ r.2 = PrimFloat.sub (series_at prices1 r.1)
                         (PrimFloat.mul hedge_ratio (series_at prices2 r.1))) spread
  ∧ index spread `sublist_of` map fst (aligned prices1 prices2)
  ∧ (length spread ≤ length (aligned prices1 prices2))%nat.
Proof.
  cbv zeta. unfold compute_spread. cbv zeta. fold (aligned prices1 prices2).
  rewrite dropna_replace_inf.
  set (rows := map (λ r : Z * (float * float),
                      (r.1, PrimFloat.sub r.2.1 (PrimFloat.mul hedge_ratio r.2.2)))
                   (aligned prices1 prices2)).
  assert (Hidx : index rows = map fst (aligned prices1 prices2)).
  { unfold index, rows. rewrite map_map. by apply map_ext. }
  split_and!.
  - apply Forall_forall. intros r [Hr Hfin]%list_elem_of_In%filter_In.
    unfold finite_row in Hfin.
    apply andb_prop in Hfin as [H1%negb_true_iff H2%negb_true_iff].
    split; [done |]. split; [done |].
    apply list_elem_of_In, list_elem_of_fmap in Hr as (row & -> & Hrow).
    pose proof (aligned_rows prices1 prices2) as Hrows.
    rewrite Forall_forall in Hrows. destruct (Hrows row Hrow) as (E1 & E2 & _).
    cbn [fst snd]. by rewrite E1, E2.
  - rewrite <- Hidx. apply index_filter_sublist.
  - etrans; [apply sublist_length, list_filter_sublist |]. unfold rows.
    by rewrite length_map.
Qed.

(** [compute_spread] for any hedge ratio: every value of the spread is a
    finite number, it is [p1 - hedge_ratio * p2] at its label, and the
    labels are labels of the aligned frame, in order. *)
Theorem compute_spread_finite (prices1 prices2 : Series) (hedge_ratio : float) :
  let spread := compute_spread prices1 prices2 hedge_ratio in
  Forall (λ r, is_nan r.2 = false ∧ is_infinity r.2 = false
               ∧ r.2 = PrimFloat.sub (series_at prices1 r.1)
                         (PrimFloat.mul hedge_ratio (series_at prices2 r.1))) spread
  ∧ index spread `sublist_of` map fst (aligned prices1 prices2)
  ∧ (length spread ≤ length (aligned prices1 prices2))%nat.
Proof. apply compute_spread_rows. Qed.

(** The three series of [analyze_pair] never carry a label from outside the
    aligned frame: the labels of the z-score are labels of the spread, and
    the labels of the spread and of the correlation are labels of the
    aligned frame, in the same order. *)
Theorem derived_series_labels (prices1 prices2 : Series) (window : Z) :
  index (pair_spread prices1 prices2) `sublist_of` map fst (aligned prices1 prices2)
  ∧ index (pair_zscore prices1 prices2 window)
    `sublist_of` index (pair_spread prices1 prices2)
  ∧ index (pair_correlation prices1 prices2 window)
    `sublist_of` map fst (aligned prices1 prices2)
  ∧ Forall (λ r, is_nan r.2 = false) (pair_correlation prices1 prices2 window).
Proof.
  split_and!.
  - rewrite pair_spread_compute. apply compute_spread_rows.
  - unfold pair_zscore. cbv zeta. case_decide; [| apply sublist_nil_l].
    rewrite dropna_replace_inf. etrans; [apply index_filter_sublist |].
    by rewrite index_zscore_rows.
  - unfold pair_correlation. cbv zeta. case_decide; [| apply sublist_nil_l].
    etrans; [apply index_filter_sublist |]. by rewrite index_on_index.
  - unfold pair_correlation. cbv zeta. case_decide; [| apply Forall_nil_2].
    apply Forall_forall. intros r [_ Hr]%list_elem_of_In%filter_In.
    by apply negb_true_iff.
Qed.

(** ** The gate *)

Lemma distinct_all_equal (l : list float) :
  (∀ x y, x ∈ l → y ∈ l → feqb x y = true) → (length (distinct l) ≤ 1)%nat.
Proof.
  induction l as [| a l IH]; intros Heq; cbn [distinct]; [cbn; lia |].
  destruct (existsb (feqb a) l) eqn:E.
  - apply IH. intros x y Hx Hy. apply Heq; by right.
  - destruct l as [| b l]; [cbn; lia |].
    assert (feqb a b = true) as Hab by (apply Heq; [left | right; left]).
    cbn [existsb] in E. rewrite Hab in E. done.
Qed.

(** The gate is all or nothing: [series_to_list_safe] returns either the
    empty list or one point per row of the series, in order, and the latter
    only for a series of at least three rows. *)
Theorem series_to_list_safe_all_or_nothing (s : Series) :
  series_to_list_safe s = []
  ∨ (series_to_list_safe s = map point_of s ∧ (3 ≤ length s)%nat
     ∧ is_plot_safe s 3 = true).
Proof.
  unfold series_to_list_safe.
  destruct (is_plot_safe s 3) eqn:Esafe; cbn [negb]; [| by left].
  pose proof Esafe as Hsafe.
  apply is_plot_safe_inv in Hsafe as (Hlen & Hnan & Hinf & _).
  rewrite points_of_clean_series by done. rewrite length_map.
  case_decide; [lia |]. right. split_and!; [done | lia | done].
Qed.

(** A series whose values are all equal is replaced by the empty list,
    whatever its length. *)
Theorem constant_series_is_emptied (s : Series) :
  (∀ x y, x ∈ values s → y ∈ values s → feqb x y = true) →
  series_to_list_safe s = [].
Proof.
  intros Hconst. unfold series_to_list_safe.
  assert (is_plot_safe s 3 = false) as ->; [| done].
  unfold is_plot_safe. case_decide; [done |].
  destruct (existsb is_nan (values s) || existsb is_infinity (values s)); [done |].
  rewrite decide_True; [done |]. unfold nunique.
  apply distinct_all_equal. intros x y [Hx _]%list_elem_of_In%filter_In
    [Hy _]%list_elem_of_In%filter_In.
  apply Hconst; by apply list_elem_of_In.
Qed.

(** ** Sanitizing *)

Lemma json_safe_dict (entries : list (string * pyval)) :
  json_safe (PDict entries) = forallb (λ e, json_safe e.2) entries.
Proof.
  cbn [json_safe]. induction entries as [| [k x] entries IH]; [done |].
  cbn [forallb snd]. by rewrite IH.
Qed.

Lemma json_safe_list (items : list pyval) :
  json_safe (PList items) = forallb json_safe items.
Proof.
  cbn [json_safe]. induction items as [| x items IH]; [done |].
  cbn [forallb]. by rewrite IH.
Qed.

Lemma no_lists_dict (entries : list (string * pyval)) :
  no_lists (PDict entries) = forallb (λ e, no_lists e.2) entries.
Proof.
  cbn [no_lists]. induction entries as [| [k x] entries IH]; [done |].
  cbn [forallb snd]. by rewrite IH.
Qed.

Lemma sanitize_dict_dict (entries : list (string * pyval)) :
  sanitize_dict (PDict entries) = PDict (map (λ e, (e.1, sanitize_dict e.2)) entries).
Proof.
  cbn [sanitize_dict]. f_equal. induction entries as [| [k x] entries IH]; [done |].
  cbn [map fst snd]. rewrite IH. by destruct x.
Qed.

Lemma sanitize_value_safe (v : pyval) :
  match v with PList _ | PDict _ => False | _ => True end →
  json_safe (sanitize_value v) = true.
Proof.
  destruct v as [| | | x | | |]; try done. intros _. cbn [sanitize_value].
  destruct (is_nan x || is_infinity x) eqn:E; [done |].
  apply orb_false_elim in E as [E1 E2]. cbn [json_safe]. by rewrite E1, E2.
Qed.

Lemma sanitize_dict_no_lists_safe (v : pyval) :
  no_lists v = true → json_safe (sanitize_dict v) = true.
Proof.
  induction v as [| b | n | x | str | items _ | entries IH] using pyval_induction;
    try (intros _; by apply sanitize_value_safe).
  - done.
  - rewrite no_lists_dict, sanitize_dict_dict, json_safe_dict.
    induction IH as [| [k x] entries Hx _ IHentries]; [done |].
    cbn [forallb map fst snd] in Hx |- *. intros [H1 H2]%andb_prop.
    rewrite Hx by done. by rewrite IHentries.
Qed.

Lemma sanitize_dict_again (v : pyval) : sanitize_dict (sanitize_dict v) = sanitize_dict v.
Proof.
  induction v as [| b | n | x | str | items _ | entries IH] using pyval_induction;
    try done.
  - cbn [sanitize_dict sanitize_value].
    destruct (is_nan x || is_infinity x) eqn:E; [done |].
    cbn [sanitize_dict sanitize_value]. by rewrite E.
  - rewrite !sanitize_dict_dict. f_equal. rewrite map_map.
    apply map_ext_in. intros e He. cbn [fst snd].
    rewrite List.Forall_forall in IH. by rewrite (IH e He).
Qed.

(** [sanitize_dict] on a payload made of scalars and nested dicts: the
    result holds no NaN and no infinite float at any depth, has the same
    keys, and sanitizing it again changes nothing. A list inside the
    payload is handed back as it is. *)
Theorem sanitize_dict_safe (v : pyval) :
  no_lists v = true →
  json_safe (sanitize_dict v) = true
  ∧ keys (sanitize_dict v) = keys v
  ∧ sanitize_dict (sanitize_dict v) = sanitize_dict v
  ∧ ∀ items, sanitize_dict (PList items) = PList items.
Proof.
  intros Hv. split_and!.
  - by apply sanitize_dict_no_lists_safe.
  - destruct v; try done.
    + cbn [sanitize_dict sanitize_value]. by destruct (is_nan x || is_infinity x).
    + rewrite sanitize_dict_dict. cbn [keys]. rewrite map_map. by apply map_ext.
  - apply sanitize_dict_again.
  - done.
Qed.

Lemma dict_set_safe (k : string) (v : pyval) (d : list (string * pyval)) :
  json_safe v = true → forallb (λ e, json_safe e.2) d = true →
  forallb (λ e, json_safe e.2) (dict_set k v d) = true.
Proof.
  intros Hv. induction d as [| [k' v'] d IH]; cbn [dict_set forallb snd].
  - by rewrite Hv.
  - intros [H1 H2]%andb_prop. case_decide; cbn [forallb snd].
    + by rewrite Hv, H2.
    + by rewrite H1, IH.
Qed.

Lemma dict_literal_safe (items : list (string * pyval)) :
  forallb (λ e, json_safe e.2) items = true →
  json_safe (PDict (dict_literal items)) = true.
Proof.
  rewrite json_safe_dict. unfold dict_literal.
  assert (Hgen : ∀ acc, forallb (λ e, json_safe e.2) acc = true →
            forallb (λ e, json_safe e.2) items = true →
            forallb (λ e, json_safe e.2)
              (fold_left (λ d kv, dict_set kv.1 kv.2 d) items acc) = true).
  { induction items as [| [k v] items IH]; intros acc Hacc; [done |].
    cbn [forallb fold_left fst snd]. intros [H1 H2]%andb_prop.
    apply IH; [by apply dict_set_safe | done]. }
  by apply Hgen.
Qed.

Lemma compute_basic_stats_no_lists (prices : Series) :
  no_lists (compute_basic_stats prices) = true.
Proof. unfold compute_basic_stats. by case_decide. Qed.

Lemma augmented_dickey_fuller_test_no_lists (series : Series) :
  no_lists (augmented_dickey_fuller_test series) = true.
Proof.
  unfold augmented_dickey_fuller_test. case_decide; [done |].
  by destruct (adfuller (values (dropna series))).
Qed.

Lemma series_to_list_safe_json (s : Series) :
  json_safe (PList (series_to_list_safe s)) = true.
Proof.
  rewrite json_safe_list. apply forallb_forall. intros p Hp%list_elem_of_In.
  destruct (series_to_list_safe_gated s) as [E | (_ & Hall & _)].
  - rewrite E in Hp. by apply elem_of_nil in Hp.
  - rewrite Forall_forall in Hall. destruct (Hall p Hp) as (t & v & -> & H1 & H2).
    rewrite json_safe_list. cbn [forallb json_safe]. by rewrite H1, H2.
Qed.

Lemma iloc_last_safe (s : Series) : json_safe (sanitize_value (iloc_last s)) = true.
Proof. unfold iloc_last. destruct (last s); by apply sanitize_value_safe. Qed.

Lemma analyze_pair_payload_safe symbol1 symbol2 (prices1 prices2 : Series) (window : Z) :
  json_safe (analyze_pair symbol1 symbol2 prices1 prices2 window) = true.
Proof.
  destruct (decide (Z.of_nat (length (aligned prices1 prices2)) < min_required window))
    as [Hshort | Hlong].
  { by rewrite analyze_pair_short. }
  rewrite analyze_pair_sufficient by lia.
  rewrite json_safe_dict. cbn [forallb snd].
  rewrite !iloc_last_safe, !(sanitize_value_safe (PFloat _)) by done.
  rewrite dict_literal_safe.
  2:{ cbn [forallb snd].
      by rewrite !sanitize_dict_no_lists_safe by apply compute_basic_stats_no_lists. }
  rewrite sanitize_dict_no_lists_safe by apply augmented_dickey_fuller_test_no_lists.
  rewrite json_safe_dict. cbn [forallb snd].
  by rewrite !series_to_list_safe_json.
Qed.

(** The payload of [analyze_pair], full or insufficient, holds no NaN and no
    infinite float anywhere: in no scalar, in no statistics block, in the
    test block, in no point of a series. *)
Theorem analyze_pair_json_safe symbol1 symbol2 (prices1 prices2 : Series) (window : Z) :
  json_safe (analyze_pair symbol1 symbol2 prices1 prices2 window) = true.
Proof. apply analyze_pair_payload_safe. Qed.

(** [augmented_dickey_fuller_test] always returns a dict. It is the marker
    [{'error': ...}] alone when the series has fewer than 12 rows or when
    [adfuller] raises, the marker then carrying the text of the exception;
    otherwise it has the six result keys, with [is_stationary] true exactly
    when the p-value is below 0.05. *)
Theorem augmented_dickey_fuller_test_shape (series : Series) :
  let result := augmented_dickey_fuller_test series in
  ((length series < 12)%nat
   ∧ result = PDict [("error", PStr "Insufficient data for ADF test")])
  ∨ ((12 ≤ length series)%nat
     ∧ ∃ e, adfuller (values (dropna series)) = inl e
            ∧ result = PDict [("error", PStr e)])
  ∨ ((12 ≤ length series)%nat
     ∧ ∃ out, adfuller (values (dropna series)) = inr out
              ∧ keys result = ["adf_statistic"; "p_value"; "used_lag"; "n_observations";
                               "critical_values"; "is_stationary"]
              ∧ field "error" result = None
              ∧ field "p_value" result = Some (PFloat (adf_pvalue out))
              ∧ field "is_stationary" result
                = Some (PBool (PrimFloat.ltb (adf_pvalue out) 0.05))).
Proof.
  cbv zeta. unfold augmented_dickey_fuller_test.
  case_decide as Hlen; [left; by split |]. right.
  destruct (adfuller (values (dropna series))) as [e | out].
  - left. split; [lia |]. by exists e.
  - right. split; [lia |]. exists out. by split_and!.
Qed.

Lemma stats_literal (symbol1 symbol2 : string) (a b c : pyval) :
  dict_literal [(symbol1, a); (symbol2, b); ("spread", c)]
  = if decide (symbol1 = symbol2)
    then (if decide (symbol1 = "spread") then [("spread", c)]
          else [(symbol1, b); ("spread", c)])
    else if decide (symbol1 = "spread") then [("spread", c); (symbol2, b)]
    else if decide (symbol2 = "spread") then [(symbol1, a); ("spread", c)]
    else [(symbol1, a); (symbol2, b); ("spread", c)].
Proof.
  unfold dict_literal. cbn [fold_left dict_set fst snd].
  destruct (decide (symbol1 = symbol2)) as [-> | Hne]; cbn [dict_set].
  - destruct (decide (symbol2 = "spread")) as [-> | Hs]; [done |].
    cbn [dict_set]. done.
  - destruct (decide (symbol1 = "spread")) as [-> | Hs1]; [done |].
    cbn [dict_set].
    destruct (decide (symbol2 = "spread")) as [-> | Hs2]; [done |]. done.
Qed.

(** The ["stats"] block of a full result is the dict display
    [{symbol1: ..., symbol2: ..., 'spread': ...}]: three blocks, each under
    its own name, when the two symbols differ and neither is called
    "spread"; with equal symbols the block of the second series replaces
    that of the first, and a symbol called "spread" has its block replaced
    by that of the spread. *)
Theorem analyze_pair_stats_blocks symbol1 symbol2 (prices1 prices2 : Series) (window : Z) :
  Z.max 5 window ≤ Z.of_nat (length (aligned prices1 prices2)) →
  let stats1 := sanitize_dict (compute_basic_stats (column1 (aligned prices1 prices2))) in
  let stats2 := sanitize_dict (compute_basic_stats (column2 (aligned prices1 prices2))) in
  let spread_stats := sanitize_dict (compute_basic_stats (pair_spread prices1 prices2)) in
  field "stats" (analyze_pair symbol1 symbol2 prices1 prices2 window)
  = Some (PDict
      (if decide (symbol1 = symbol2)
       then (if decide (symbol1 = "spread") then [("spread", spread_stats)]
             else [(symbol1, stats2); ("spread", spread_stats)])
       else if decide (symbol1 = "spread") then [("spread", spread_stats); (symbol2, stats2)]
       else if decide (symbol2 = "spread") then [(symbol1, stats1); ("spread", spread_stats)]
       else [(symbol1, stats1); (symbol2, stats2); ("spread", spread_stats)])).
Proof.
  intros Hlong. cbv zeta. rewrite analyze_pair_sufficient by done.
  rewrite stats_literal. reflexivity.
Qed.

End Series.

Lemma analyze_pair_stats_blocks_witness :
  field "stats" (analyze_pair "btcusdt" "btcusdt" closes_a closes_b 5)
  = Some (PDict
      [("btcusdt", sanitize_dict (compute_basic_stats (column2 (aligned closes_a closes_b))));
       ("spread", sanitize_dict (compute_basic_stats (pair_spread closes_a closes_b)))]).
Proof.
  pose proof (analyze_pair_stats_blocks "btcusdt" "btcusdt" closes_a closes_b 5) as Hthm.
  cbv zeta in Hthm. rewrite Hthm.
  - reflexivity.
  - vm_compute. discriminate.
Defined.

Lemma sanitize_dict_safe_witness :
  let v := compute_basic_stats closes_a in
  json_safe (sanitize_dict v) = true
  ∧ keys (sanitize_dict v) = keys v
  ∧ sanitize_dict (sanitize_dict v) = sanitize_dict v
  ∧ ∀ items, sanitize_dict (PList items) = PList items.
Proof.
  apply (sanitize_dict_safe (compute_basic_stats closes_a)). vm_compute. reflexivity.
Defined.

Lemma constant_series_is_emptied_witness :
  series_to_list_safe (pair_spread closes_a closes_b) = [].
Proof.
  apply (constant_series_is_emptied (pair_spread closes_a closes_b)).
  intros x y Hx Hy. vm_compute in Hx, Hy.
  repeat (apply elem_of_cons in Hx as [-> | Hx]); try (by apply elem_of_nil in Hx);
  repeat (apply elem_of_cons in Hy as [-> | Hy]); try (by apply elem_of_nil in Hy);
  reflexivity.
Defined.

End AnalyticsExtra.
(** * Further properties of the endpoints, the resampling loop and alerts *)

Module ApiExtra.
Import Storage.
Import Api.
Import Reference.
Import Predicates.
Import StorageProps.
Import StorageExtra.

(** The frame an endpoint reads: the last 1000 rows of the stored table. *)
Lemma get_ohlcv_default_limit st sym tf :
  Storage.get_ohlcv st sym tf 1000
  = drop (length (stored st sym tf) - 1000) (stored st sym tf).
Proof.
  rewrite get_ohlcv_table. unfold tail. rewrite decide_False by lia.
  by rewrite py_slice_from_last by lia.
Qed.

Lemma get_ohlcv_default_limit_nil st sym tf :
  Storage.get_ohlcv st sym tf 1000 = [] ↔ stored st sym tf = [].
Proof.
  rewrite get_ohlcv_default_limit. split.
  - intros E. apply (f_equal length) in E. rewrite length_drop in E. cbn in E.
    destruct (stored st sym tf) as [| b l]; [done |]. cbn [length] in E. lia.
  - intros ->. done.
Qed.

Section Endpoints.
Context {num : Analytics.Numerics} {fmt : TimeFormat}.

(** The analysis endpoint: HTTP 400 for a timeframe that is not configured;
    HTTP 404 when either symbol has no stored bar for the timeframe;
    HTTP 500 when [PairAnalysis.analyze_pair] raises on the close columns of
    the last 1000 bars of the two tables, which it does, with [ValueError],
    past the length gate for a negative window or for ten aligned rows or
    more with a second series that does not move; otherwise the payload of
    [PairAnalysis.analyze_pair], which holds no NaN and no infinite float. *)
Theorem analyze_endpoint_outcomes (st : DataStorage) (symbol1 symbol2 timeframe : string)
  (window : Z) :
  let table1 := stored st symbol1 timeframe in
  let table2 := stored st symbol2 timeframe in
  let prices1 := close_column (drop (length table1 - 1000) table1) in
  let prices2 := close_column (drop (length table2 - 1000) table2) in
  let rows := Analytics.aligned prices1 prices2 in
  match Api.analyze_pair st symbol1 symbol2 timeframe window with
  | Raised status_code detail =>
      (status_code = 400 ∧ (timeframe ∉ map fst TIMEFRAMES))
      ∨ (status_code = 404 ∧ (timeframe ∈ map fst TIMEFRAMES)
         ∧ (table1 = [] ∨ table2 = []))
      ∨ (status_code = 500 ∧ (timeframe ∈ map fst TIMEFRAMES)
         ∧ table1 ≠ [] ∧ table2 ≠ []
         ∧ Analytics.analyze_pair_outcome symbol1 symbol2 prices1 prices2 window
           = Analytics.Raises "ValueError"
         ∧ Z.max 5 window ≤ Z.of_nat (length rows)
         ∧ (window < 0
            ∨ ((10 ≤ length rows)%nat
               ∧ Analytics.linregress_rejects (Analytics.values (Analytics.column2 rows))
                 = true)))
  | Returned payload =>
      (timeframe ∈ map fst TIMEFRAMES) ∧ table1 ≠ [] ∧ table2 ≠ []
      ∧ payload = Analytics.analyze_pair symbol1 symbol2 prices1 prices2 window
      ∧ json_safe payload = true
      ∧ (Z.of_nat (length rows) < Z.max 5 window
         ∨ (0 ≤ window
            ∧ ((length rows < 10)%nat
               ∨ Analytics.linregress_rejects (Analytics.values (Analytics.column2 rows))
                 = false)))
  end.
Proof.
  cbv zeta. unfold Api.analyze_pair.
  destruct (bool_decide (timeframe ∈ map fst TIMEFRAMES)) eqn:Etf; cbn [negb].
  2:{ apply bool_decide_eq_false in Etf. left. done. }
  apply bool_decide_eq_true in Etf. cbv zeta.
  destruct (bool_decide (Storage.get_ohlcv st symbol1 timeframe 1000 = [])) eqn:E1.
  { apply bool_decide_eq_true, get_ohlcv_default_limit_nil in E1.
    cbn [orb]. right. left. split_and!; [done | done | by left]. }
  destruct (bool_decide (Storage.get_ohlcv st symbol2 timeframe 1000 = [])) eqn:E2.
  { apply bool_decide_eq_true, get_ohlcv_default_limit_nil in E2.
    cbn [orb]. right. left. split_and!; [done | done | by right]. }
  cbn [orb]. apply bool_decide_eq_false in E1, E2.
  rewrite get_ohlcv_default_limit_nil in E1, E2.
  rewrite !get_ohlcv_default_limit.
  destruct (Analytics.analyze_pair_outcome _ _ _ _ _) as [e | payload] eqn:Eout.
  - apply AnalyticsProps.analyze_pair_outcome_raises in Eout as Hwhy.
    destruct Hwhy as (-> & Hlen & Hwhy).
    right. right. split_and!; done.
  - apply AnalyticsProps.analyze_pair_outcome_returned in Eout as [-> Hwhy].
    split_and!; try done.
    apply AnalyticsExtra.analyze_pair_payload_safe.
Qed.

(** The statistics endpoint: HTTP 400 for a timeframe that is not
    configured, HTTP 404 when the symbol has no stored bar; otherwise the
    statistics of the close column of the last 1000 bars, which for a table
    of a single bar is the empty dict. *)
Theorem get_symbol_stats_outcomes (st : DataStorage) (sym timeframe : string) :
  let table := stored st sym timeframe in
  match get_symbol_stats st sym timeframe with
  | Raised status_code detail =>
      (status_code = 400 ∧ (timeframe ∉ map fst TIMEFRAMES))
      ∨ (status_code = 404 ∧ (timeframe ∈ map fst TIMEFRAMES) ∧ table = [])
  | Returned stats =>
      (timeframe ∈ map fst TIMEFRAMES) ∧ table ≠ []
      ∧ stats = Analytics.compute_basic_stats
                  (close_column (drop (length table - 1000) table))
      ∧ (length table = 1%nat → stats = Analytics.PDict [])
  end.
Proof.
  cbv zeta. unfold get_symbol_stats.
  destruct (bool_decide (timeframe ∈ map fst TIMEFRAMES)) eqn:Etf; cbn [negb].
  2:{ apply bool_decide_eq_false in Etf. left. done. }
  apply bool_decide_eq_true in Etf. cbv zeta.
  destruct (bool_decide (Storage.get_ohlcv st sym timeframe 1000 = [])) eqn:E1.
  { apply bool_decide_eq_true, get_ohlcv_default_limit_nil in E1. right. done. }
  apply bool_decide_eq_false in E1. rewrite get_ohlcv_default_limit_nil in E1.
  rewrite get_ohlcv_default_limit. split_and!; try done.
  intros Hone. unfold Analytics.compute_basic_stats.
  rewrite decide_True; [done |].
  unfold close_column. rewrite length_map, length_drop. lia.
Qed.

(** The bars of the OHLCV endpoint are stored bars: the answer is made, in
    order and without change of value, of rows among the last [limit] rows
    of the stored table, so for a limit that is not negative it has at most
    [limit] items; it is empty when nothing is stored. *)
Theorem get_ohlcv_endpoint_rows (st : DataStorage) (sym timeframe : string) (limit : Z)
  (data : list BarJson) :
  Api.get_ohlcv st sym timeframe limit = Data data →
  data `sublist_of` map bar_json (Storage.get_ohlcv st sym timeframe limit)
  ∧ map bar_json (Storage.get_ohlcv st sym timeframe limit)
    `suffix_of` map bar_json (stored st sym timeframe)
  ∧ (0 ≤ limit → (length data ≤ Z.to_nat limit)%nat)
  ∧ (stored st sym timeframe = [] → data = []).
Proof.
  intros Hdata.
  assert (Hsub : data `sublist_of` map bar_json (Storage.get_ohlcv st sym timeframe limit)).
  { unfold Api.get_ohlcv in Hdata.
    destruct (negb (bool_decide (timeframe ∈ map fst TIMEFRAMES))); [done |].
    destruct (bool_decide (Storage.get_ohlcv st sym timeframe limit = []));
      [injection Hdata as <-; apply sublist_nil_l |].
    cbv zeta in Hdata. case_decide; injection Hdata as <-; [apply sublist_nil_l |].
    apply (fmap_sublist bar_json).
    set (rows := Storage.get_ohlcv st sym timeframe limit). clearbody rows.
    induction rows as [| r rows IH]; [done |]. cbn [List.filter].
    destruct (negb (row_isna_any r)); [by apply sublist_skip | by apply sublist_cons]. }
  assert (Hrows : Storage.get_ohlcv st sym timeframe limit `suffix_of` stored st sym timeframe
                  ∧ (0 ≤ limit →
                     (length (Storage.get_ohlcv st sym timeframe limit) ≤ Z.to_nat limit)%nat)).
  { rewrite get_ohlcv_table. fold (stored st sym timeframe).
    unfold tail, py_slice_from. split.
    - repeat case_decide; try apply suffix_drop. apply suffix_nil.
    - intros Hl. repeat case_decide; rewrite ?length_drop; cbn; lia. }
  destruct Hrows as [Hsuffix Hlen]. split_and!.
  - done.
  - destruct Hsuffix as [pre E]. exists (map bar_json pre). by rewrite E, map_app.
  - intros Hl. apply sublist_length in Hsub. rewrite length_map in Hsub.
    specialize (Hlen Hl). lia.
  - intros Hnil. rewrite Hnil in Hsuffix. apply suffix_nil_inv in Hsuffix.
    rewrite Hsuffix in Hsub. by apply sublist_nil_r in Hsub.
Qed.

End Endpoints.

Lemma get_ohlcv_endpoint_rows_witness :
  map bar_json overflowed_bars
  `sublist_of` map bar_json (Storage.get_ohlcv overflowed_storage "btcusdt" "1m" 1000)
  ∧ map bar_json (Storage.get_ohlcv overflowed_storage "btcusdt" "1m" 1000)
    `suffix_of` map bar_json (stored overflowed_storage "btcusdt" "1m")
  ∧ (0 ≤ 1000 → (length (map bar_json overflowed_bars) ≤ Z.to_nat 1000)%nat)
  ∧ (stored overflowed_storage "btcusdt" "1m" = [] → map bar_json overflowed_bars = []).
Proof.
  apply (get_ohlcv_endpoint_rows overflowed_storage "btcusdt" "1m" 1000
           (map bar_json overflowed_bars)).
  vm_compute. reflexivity.
Defined.

(** Two tables of ten bars, the closes of the second all equal: the
    analysis endpoint answers with status 500, as it does for a window of
    -1. *)
Lemma analyze_endpoint_internal_error_example :
  Api.analyze_pair flat_pair_storage "btcusdt" "ethusdt" "1m" 5
  = Raised 500 "Internal Server Error"
  ∧ Api.analyze_pair flat_pair_storage "btcusdt" "btcusdt" "1m" (-1)
    = Raised 500 "Internal Server Error".
Proof. split; vm_compute; reflexivity. Qed.

(** ** Alerts *)

Lemma create_alerts_snoc requests req alerts :
  create_alerts (requests ++ [req]) alerts
  = (create_alert (create_alerts requests alerts) req.1 req.2).2.
Proof. unfold create_alerts. by rewrite fold_left_app. Qed.

(** Alerts created on an empty list are numbered 1, 2, 3, ... in the order
    of the requests; they keep the configuration and the time of their
    request, none is triggered, and no two share an id. *)
Theorem create_alerts_numbered (requests : list (Analytics.pyval * string)) :
  let alerts := create_alerts requests [] in
  map alert_id alerts = map (λ i, Z.of_nat i + 1) (seq 0 (length requests))
  ∧ map (λ a, (alert_config a, created_at a)) alerts = requests
  ∧ Forall (λ a, triggered a = false) alerts
  ∧ NoDup (map alert_id alerts).
Proof.
  cbv zeta.
  assert (Hmain : map alert_id (create_alerts requests [])
                  = map (λ i, Z.of_nat i + 1) (seq 0 (length requests))
                  ∧ map (λ a, (alert_config a, created_at a)) (create_alerts requests [])
                    = requests
                  ∧ Forall (λ a, triggered a = false) (create_alerts requests [])).
  { induction requests as [| [config now] requests IH] using rev_ind.
    - split_and!; [done | done | apply Forall_nil_2].
    - destruct IH as (Hid & Hreq & Htrig).
      assert (Hlen : length (create_alerts requests []) = length requests).
      { apply (f_equal length) in Hid. by rewrite !length_map, length_seq in Hid. }
      rewrite create_alerts_snoc. unfold create_alert. cbn [fst snd].
      rewrite !map_app, Hid, Hreq, Hlen, length_app, seq_app, map_app. cbn.
      split_and!; [done | done |].
      apply Forall_app. split; [done |]. by apply Forall_singleton. }
  destruct Hmain as (Hid & Hreq & Htrig). split_and!; try done.
  rewrite Hid. apply NoDup_fmap_2; [| apply NoDup_ListNoDup, seq_NoDup].
  intros i j Hij. lia.
Qed.

(** ** One pass of the resampling loop *)

Lemma timeframes_cases (tf : string) (seconds : Z) :
  (tf, seconds) ∈ TIMEFRAMES →
  (tf = "1s" ∧ seconds = 1) ∨ (tf = "1m" ∧ seconds = 60) ∨ (tf = "5m" ∧ seconds = 300).
Proof.
  unfold TIMEFRAMES. rewrite !elem_of_cons, elem_of_nil.
  intros [E | [E | [E | []]]]; injection E as -> ->; tauto.
Qed.

Lemma timeframes_positive (tf : string) (seconds : Z) :
  (tf, seconds) ∈ TIMEFRAMES → 0 < seconds ≤ max_bin_seconds.
Proof.
  unfold max_bin_seconds. intros [[_ ->] | [[_ ->] | [_ ->]]]%timeframes_cases; lia.
Qed.

Lemma timeframes_functional (tf : string) (a b : Z) :
  (tf, a) ∈ TIMEFRAMES → (tf, b) ∈ TIMEFRAMES → a = b.
Proof.
  intros [[-> ->] | [[-> ->] | [-> ->]]]%timeframes_cases
         [[E ->] | [[E ->] | [E ->]]]%timeframes_cases; done.
Qed.

Section Pass.
Context {agg : GroupAgg}.

Lemma resample_symbol_jobs p sym :
  resample_symbol p sym = fold_left run_job (map (λ job, (sym, job)) TIMEFRAMES) p.
Proof. reflexivity. Qed.

Lemma resampling_pass_over_jobs symbols st :
  resampling_pass_over symbols st
  = storage_of (fold_left run_job (jobs symbols) (Running st)).
Proof.
  unfold resampling_pass_over, jobs. f_equal. generalize (Running st) as p.
  induction symbols as [| sym symbols IH]; intros p; [done |].
  cbn [fold_left mbind list_bind]. rewrite fold_left_app, <- resample_symbol_jobs.
  apply IH.
Qed.

Lemma elem_of_jobs symbols sym tf seconds :
  (sym, (tf, seconds)) ∈ jobs symbols ↔ sym ∈ symbols ∧ (tf, seconds) ∈ TIMEFRAMES.
Proof.
  unfold jobs. rewrite list_elem_of_bind. split.
  - intros (s & Hin & Hs). apply list_elem_of_fmap in Hin as (job & Heq & Hjob).
    injection Heq as -> ->. done.
  - intros [Hs Hjob]. exists sym. split; [| done].
    apply list_elem_of_fmap. by exists (tf, seconds).
Qed.

(** A call of the pass leaves the storage as it is (the pass has stopped)
    or as the call leaves it. *)
Lemma run_job_storage p job :
  storage_of (run_job p job) = storage_of p
  ∨ storage_of (run_job p job)
    = (resample_to_ohlcv (storage_of p) job.1 job.2.1 job.2.2).2.
Proof.
  unfold run_job, resample_job. destruct p as [st | st]; [| by left]. right.
  cbn [storage_of]. destruct job as [sym [tf seconds]]. cbn [fst snd].
  by destruct (resample_to_ohlcv st sym tf seconds) as [[| |] st1].
Qed.

(** Once stopped, a pass makes no further call. *)
Lemma run_jobs_stopped (l : list (string * (string * Z))) st :
  fold_left run_job l (Stopped st) = Stopped st.
Proof. induction l as [| job l IH]; [done |]. cbn [fold_left]. exact IH. Qed.

(** A call that the resampler accepts, or that finds fewer than two ticks,
    leaves the pass running. *)
Lemma run_job_running st sym tf seconds :
  (length (buffer st sym) < 2)%nat ∨ accepted st sym seconds →
  run_job (Running st) (sym, (tf, seconds))
  = Running (resample_to_ohlcv st sym tf seconds).2.
Proof.
  intros Hok. unfold run_job, resample_job. cbn [fst snd].
  pose proof (resample_to_ohlcv_result st sym tf seconds) as Hres.
  destruct (resample_to_ohlcv st sym tf seconds) as [res st1]. cbn [fst snd] in *.
  destruct Hok as [Hfew | Hacc].
  - rewrite decide_True in Hres by done. by subst res.
  - destruct (decide (length (buffer st sym) < 2)%nat); [by subst res |].
    rewrite decide_True in Hres by done. by subst res.
Qed.

(** A call that the resampler rejects stops the pass and writes no
    table. *)
Lemma run_job_rejected st sym tf seconds :
  (2 ≤ length (buffer st sym))%nat → ¬ accepted st sym seconds →
  run_job (Running st) (sym, (tf, seconds))
  = Stopped (resample_to_ohlcv st sym tf seconds).2
  ∧ resampled_data (resample_to_ohlcv st sym tf seconds).2 = resampled_data st.
Proof.
  intros Hlen Hno. unfold run_job, resample_job. cbn [fst snd].
  rewrite resample_to_ohlcv_cases. cbv zeta.
  rewrite decide_False by lia. rewrite decide_False by done. cbn [snd].
  split; [done |]. apply resampled_data_get_recent_ticks.
Qed.

Lemma run_job_buffer p job sym :
  buffer (storage_of (run_job p job)) sym = buffer (storage_of p) sym.
Proof.
  destruct (run_job_storage p job) as [-> | ->]; [done |]. apply resample_to_ohlcv_buffer.
Qed.

Lemma run_jobs_buffer (l : list (string * (string * Z))) p sym :
  buffer (storage_of (fold_left run_job l p)) sym = buffer (storage_of p) sym.
Proof.
  revert p. induction l as [| job l IH]; intros p; [done |].
  cbn [fold_left]. rewrite IH. apply run_job_buffer.
Qed.

Lemma run_jobs_symbols (l : list (string * (string * Z))) p :
  Forall (λ job, job.1 ∈ get_all_symbols (storage_of p)) l →
  get_all_symbols (storage_of (fold_left run_job l p)) = get_all_symbols (storage_of p).
Proof.
  revert p. induction l as [| job l IH]; intros p Hl; [done |].
  apply Forall_cons in Hl as [Hjob Hl]. cbn [fold_left].
  assert (E : get_all_symbols (storage_of (run_job p job)) = get_all_symbols (storage_of p)).
  { destruct (run_job_storage p job) as [-> | ->]; [done |].
    rewrite resample_to_ohlcv_symbols. set_solver. }
  rewrite IH; [done |]. by rewrite E.
Qed.

(** Jobs leave the tables of a symbol with fewer than two ticks alone. *)
Lemma run_jobs_too_few (l : list (string * (string * Z))) p sym tf :
  (length (buffer (storage_of p) sym) < 2)%nat →
  resampled_data (storage_of (fold_left run_job l p)) !! sym ≫= (.!! tf)
  = resampled_data (storage_of p) !! sym ≫= (.!! tf).
Proof.
  revert p. induction l as [| job l IH]; intros p Hfew; [done |].
  cbn [fold_left]. rewrite IH by (by rewrite run_job_buffer).
  destruct (run_job_storage p job) as [-> | ->]; [done |].
  rewrite resample_to_ohlcv_lookup.
  rewrite decide_False; [done |]. intros ((Hlen & _) & -> & _). lia.
Qed.

(** Jobs leave alone the table of a symbol and timeframe whose own call the
    resampler rejects. *)
Lemma run_jobs_rejected (l : list (string * (string * Z))) p sym tf seconds :
  Forall (λ job, job.2 ∈ TIMEFRAMES) l →
  (tf, seconds) ∈ TIMEFRAMES →
  ¬ accepted (storage_of p) sym seconds →
  resampled_data (storage_of (fold_left run_job l p)) !! sym ≫= (.!! tf)
  = resampled_data (storage_of p) !! sym ≫= (.!! tf).
Proof.
  intros Hl Htf. revert p. induction Hl as [| [s [t secs]] l Hjob Hl IH]; intros p Hno.
  { done. }
  cbn [fold_left].
  assert (Hno' : ¬ accepted (storage_of (run_job p (s, (t, secs)))) sym seconds).
  { unfold accepted in *. by rewrite run_job_buffer. }
  rewrite IH by done.
  destruct (run_job_storage p (s, (t, secs))) as [-> | ->]; [done |].
  cbn [fst snd]. rewrite resample_to_ohlcv_lookup.
  rewrite decide_False; [done |]. intros (Hacc & -> & ->).
  cbn [snd] in Hjob. by rewrite (timeframes_functional t seconds secs) in Hno.
Qed.

(** Once the table of (symbol, timeframe) holds the bars of the buffered
    ticks, further jobs of the pass keep it so. *)
Lemma run_jobs_keep (l : list (string * (string * Z))) p sym tf seconds :
  Forall (λ job, job.2 ∈ TIMEFRAMES) l →
  (tf, seconds) ∈ TIMEFRAMES →
  let bars st := resample seconds (drop (length (buffer st sym) - 1000) (buffer st sym)) in
  resampled_data (storage_of p) !! sym ≫= (.!! tf) = Some (bars (storage_of p)) →
  resampled_data (storage_of (fold_left run_job l p)) !! sym ≫= (.!! tf)
  = Some (bars (storage_of p)).
Proof.
  intros Hl Htf. cbv zeta. revert p.
  induction Hl as [| [s [t secs]] l Hjob Hl IH]; intros p Hst; [done |].
  cbn [fold_left].
  rewrite <- (run_job_buffer p (s, (t, secs)) sym). apply IH.
  rewrite (run_job_buffer p (s, (t, secs)) sym).
  destruct (run_job_storage p (s, (t, secs))) as [-> | ->]; [done |].
  cbn [fst snd]. rewrite resample_to_ohlcv_lookup.
  case_decide as Hc; [| done]. destruct Hc as (_ & -> & ->).
  cbn [snd] in Hjob. by rewrite (timeframes_functional t seconds secs).
Qed.

(** A pass whose calls are all accepted runs to its end. *)
Lemma run_jobs_running (l : list (string * (string * Z))) st :
  calls_accepted st l →
  ∃ st', fold_left run_job l (Running st) = Running st'
         ∧ ∀ sym, buffer st' sym = buffer st sym.
Proof.
  revert st. induction l as [| [s [t secs]] l IH]; intros st Hl; [by exists st |].
  apply Forall_cons in Hl as [Hjob Hl]. cbn [fold_left fst snd] in *.
  rewrite run_job_running by done.
  destruct (IH (resample_to_ohlcv st s t secs).2) as (st' & Hrun & Hbuf).
  { eapply Forall_impl; [exact Hl |]. intros job. unfold accepted.
    by rewrite !resample_to_ohlcv_buffer. }
  exists st'. split; [done |]. intros sym.
  by rewrite Hbuf, resample_to_ohlcv_buffer.
Qed.

Lemma run_jobs_set (l : list (string * (string * Z))) st sym tf seconds :
  Forall (λ job, job.2 ∈ TIMEFRAMES) l →
  calls_accepted st l →
  (sym, (tf, seconds)) ∈ l →
  (2 ≤ length (buffer st sym))%nat →
  resampled_data (storage_of (fold_left run_job l (Running st))) !! sym ≫= (.!! tf)
  = Some (resample seconds (drop (length (buffer st sym) - 1000) (buffer st sym))).
Proof.
  intros Hl Hacc Hin Hlen.
  assert (Htf : (tf, seconds) ∈ TIMEFRAMES).
  { rewrite Forall_forall in Hl. apply (Hl _ Hin). }
  apply list_elem_of_split in Hin as (pre & post & ->).
  apply Forall_app in Hl as [_ Hpost]. apply Forall_cons in Hpost as [_ Hpost].
  apply Forall_app in Hacc as [Hpre Hjob]. apply Forall_cons in Hjob as [Hjob _].
  cbn [fst snd] in Hjob.
  rewrite fold_left_app. cbn [fold_left].
  destruct (run_jobs_running pre st Hpre) as (st1 & -> & Eb).
  assert (Hjob1 : accepted st1 sym seconds).
  { destruct Hjob as [Hfew | Hjob]; [lia |]. unfold accepted in *. by rewrite Eb. }
  rewrite run_job_running by (by right).
  set (st2 := (resample_to_ohlcv st1 sym tf seconds).2).
  assert (Eb2 : buffer st2 sym = buffer st sym).
  { unfold st2. by rewrite resample_to_ohlcv_buffer. }
  rewrite <- Eb2.
  apply (run_jobs_keep post (Running st2) sym tf seconds); [done | done |].
  cbn [storage_of]. unfold st2 at 1. rewrite resample_to_ohlcv_lookup.
  rewrite decide_True by done. by rewrite Eb2, Eb.
Qed.

Lemma jobs_configured symbols : Forall (λ job, job.2 ∈ TIMEFRAMES) (jobs symbols).
Proof.
  apply Forall_forall. intros [s [t secs]] Hin. by apply elem_of_jobs in Hin as [_ Hin].
Qed.

Lemma pass_accepted_calls st symbols :
  pass_accepted st symbols → calls_accepted st (jobs symbols).
Proof.
  intros Hpass. apply Forall_forall. intros [s [t secs]] Hin.
  apply elem_of_jobs in Hin as [Hs Ht]. cbn [fst snd].
  destruct (decide (length (buffer st s) < 2)%nat) as [Hfew | Hmany]; [by left | right].
  pose proof (timeframes_positive t secs Ht).
  split_and!; [lia | lia | lia |].
  rewrite <- recent_1000. by eapply Hpass.
Qed.

(** One pass of [resampling_loop], the keys of the tick buffer being visited
    in any order. When the resampler accepts every call, then afterwards,
    for every symbol with at least two buffered ticks and every configured
    timeframe, the table holds the bars of the last 1000 buffered ticks of
    the symbol. Whether calls are accepted or not, every deque and the set
    of known symbols are as before the pass, the tables of a symbol with
    fewer than two ticks are untouched, and so is the table of a symbol and
    timeframe whose own call is rejected. *)
Theorem resampling_pass_tables (st : DataStorage) (symbols : list string)
  (sym tf : string) (seconds : Z) :
  symbols ≡ₚ elements (get_all_symbols st) →
  (tf, seconds) ∈ TIMEFRAMES →
  (2 ≤ length (buffer st sym))%nat →
  let st' := resampling_pass_over symbols st in
  (pass_accepted st symbols →
   ∀ limit, Storage.get_ohlcv st' sym tf limit
            = tail limit (resample seconds
                            (drop (length (buffer st sym) - 1000) (buffer st sym))))
  ∧ (resample_rejects seconds
       (map timestamp (drop (length (buffer st sym) - 1000) (buffer st sym))) = true →
     stored st' sym tf = stored st sym tf)
  ∧ (∀ sym', buffer st' sym' = buffer st sym')
  ∧ get_all_symbols st' = get_all_symbols st
  ∧ (∀ sym' tf', (length (buffer st sym') < 2)%nat →
       stored st' sym' tf' = stored st sym' tf').
Proof.
  intros Hkeys Htf Hlen. cbv zeta.
  rewrite resampling_pass_over_jobs.
  assert (Hsym : sym ∈ symbols).
  { rewrite Hkeys. apply elem_of_elements. unfold get_all_symbols. apply elem_of_dom.
    unfold buffer in Hlen. destruct (tick_buffer st !! sym); [done | cbn in Hlen; lia]. }
  split_and!.
  - intros Hpass limit. rewrite get_ohlcv_table.
    rewrite (run_jobs_set _ st sym tf seconds);
      [done | apply jobs_configured | by apply pass_accepted_calls | | done].
    by apply elem_of_jobs.
  - intros Hrej. unfold stored.
    rewrite (run_jobs_rejected _ (Running st) sym tf seconds);
      [done | apply jobs_configured | done |].
    cbn [storage_of]. intros (_ & _ & Hacc). congruence.
  - intros sym'. apply (run_jobs_buffer _ (Running st)).
  - apply (run_jobs_symbols _ (Running st)). apply Forall_forall. intros [s [t secs]] Hin.
    apply elem_of_jobs in Hin as [Hin _]. rewrite Hkeys in Hin.
    by apply elem_of_elements in Hin.
  - intros sym' tf' Hfew. unfold stored. by rewrite (run_jobs_too_few _ (Running st)).
Qed.

(** Jobs for other symbols leave the tables of a symbol alone. *)
Lemma run_jobs_other (l : list (string * (string * Z))) p sym tf :
  Forall (λ job, job.1 ≠ sym) l →
  resampled_data (storage_of (fold_left run_job l p)) !! sym ≫= (.!! tf)
  = resampled_data (storage_of p) !! sym ≫= (.!! tf).
Proof.
  intros Hl. revert p. induction Hl as [| job l Hjob Hl IH]; intros p; [done |].
  cbn [fold_left]. rewrite IH.
  destruct (run_job_storage p job) as [-> | ->]; [done |].
  rewrite resample_to_ohlcv_lookup.
  rewrite decide_False; [done |]. intros (_ & -> & _). done.
Qed.

Lemma jobs_app (pre post : list string) : jobs (pre ++ post) = jobs pre ++ jobs post.
Proof. unfold jobs. apply bind_app. Qed.

(** A call that raises ends the pass. When the symbols before [sym] have
    all their calls accepted and the first call for [sym], on the one-second
    timeframe, is rejected, the tables after the pass are those left by the
    calls for the symbols before [sym]: nothing is resampled for [sym] nor
    for the symbols that come after it, whatever their ticks. *)
Theorem resampling_pass_stops_at_rejection (st : DataStorage) (pre post : list string)
  (sym : string) :
  calls_accepted st (jobs pre) →
  (2 ≤ length (buffer st sym))%nat →
  ¬ accepted st sym 1 →
  let st' := resampling_pass_over (pre ++ sym :: post) st in
  resampled_data st' = resampled_data (resampling_pass_over pre st)
  ∧ (∀ sym' tf', sym' ∉ pre → stored st' sym' tf' = stored st sym' tf')
  ∧ (∀ sym', buffer st' sym' = buffer st sym').
Proof.
  intros Hpre Hlen Hno. cbv zeta.
  assert (Hrd : resampled_data (resampling_pass_over (pre ++ sym :: post) st)
                = resampled_data (resampling_pass_over pre st)).
  { rewrite !resampling_pass_over_jobs, jobs_app, fold_left_app.
    destruct (run_jobs_running (jobs pre) st Hpre) as (st1 & -> & Hbuf).
    change (jobs (sym :: post))
      with ([(sym, ("1s", 1))]
            ++ (sym, ("1m", 60)) :: (sym, ("5m", 300)) :: jobs post).
    rewrite fold_left_app. cbn [fold_left].
    destruct (run_job_rejected st1 sym "1s" 1) as [-> Hsame].
    { by rewrite Hbuf. }
    { unfold accepted in *. by rewrite Hbuf. }
    change (run_job (Stopped ?x) ?j) with (Stopped x).
    change (run_job (Stopped ?x) ?j) with (Stopped x).
    by rewrite run_jobs_stopped. }
  split_and!.
  - exact Hrd.
  - intros sym' tf' Hnotin. unfold stored. rewrite Hrd.
    rewrite resampling_pass_over_jobs.
    rewrite (run_jobs_other (jobs pre) (Running st)); [done |].
    apply Forall_forall. intros [s [t secs]] Hin.
    apply elem_of_jobs in Hin as [Hin _]. cbn [fst]. by intros ->.
  - intros sym'. rewrite resampling_pass_over_jobs.
    apply (run_jobs_buffer _ (Running st)).
Qed.

End Pass.

(** A symbol whose trades are stamped beyond the clock comes first: the
    pass ends on it, and the symbol after it, with eight good ticks, gets no
    table. *)
Lemma resampling_pass_stops_at_rejection_witness :
  let st := run (map CallAddTick (far_ticks ++ overflowing_ticks)) new_storage in
  let st' := resampling_pass_over ([] ++ "xrpusdt" :: ["btcusdt"]) st in
  resampled_data st' = resampled_data (resampling_pass_over [] st)
  ∧ (∀ sym' tf', sym' ∉ [] → stored st' sym' tf' = stored st sym' tf')
  ∧ (∀ sym', buffer st' sym' = buffer st sym').
Proof.
  apply (resampling_pass_stops_at_rejection
           (run (map CallAddTick (far_ticks ++ overflowing_ticks)) new_storage)
           [] ["btcusdt"] "xrpusdt").
  - apply Forall_nil_2.
  - vm_compute. lia.
  - intros (_ & _ & Hacc). vm_compute in Hacc. discriminate.
Defined.

Lemma resampling_pass_tables_witness :
  let st := run (map CallAddTick overflowing_ticks) new_storage in
  let st' := resampling_pass st in
  (pass_accepted st (elements (get_all_symbols st)) →
   ∀ limit, Storage.get_ohlcv st' "btcusdt" "1m" limit
            = tail limit (resample 60
                            (drop (length (buffer st "btcusdt") - 1000)
                               (buffer st "btcusdt"))))
  ∧ (resample_rejects 60
       (map timestamp (drop (length (buffer st "btcusdt") - 1000) (buffer st "btcusdt")))
     = true →
     stored st' "btcusdt" "1m" = stored st "btcusdt" "1m")
  ∧ (∀ sym', buffer st' sym' = buffer st sym')
  ∧ get_all_symbols st' = get_all_symbols st
  ∧ (∀ sym' tf', (length (buffer st sym') < 2)%nat →
       stored st' sym' tf' = stored st sym' tf').
Proof.
  apply (resampling_pass_tables
           (run (map CallAddTick overflowing_ticks) new_storage)
           (elements (get_all_symbols (run (map CallAddTick overflowing_ticks) new_storage)))
           "btcusdt" "1m" 60).
  - reflexivity.
  - vm_compute. right. left.
  - vm_compute. lia.
Defined.

(** On the reference resampler the pass over [overflowing_ticks] is
    accepted, and the one-minute table it leaves has two bars. *)
Lemma resampling_pass_accepted_example :
  let st := run (map CallAddTick overflowing_ticks) new_storage in
  pass_accepted st (elements (get_all_symbols st))
  ∧ map ts (stored (resampling_pass st) "btcusdt" "1m") = [0; 60000].
Proof.
  cbv zeta. split; [| vm_compute; reflexivity].
  intros sym tf seconds Hsym Htf.
  assert (sym = "btcusdt") as ->.
  { vm_compute in Hsym. apply list_elem_of_singleton in Hsym. done. }
  apply timeframes_cases in Htf as [[-> ->] | [[-> ->] | [-> ->]]];
    vm_compute; reflexivity.
Qed.

End ApiExtra.
